(** * Concrete damaged-plasticity parameters after Eurocode 2: [cdp_comp.py]

    The script reads one number, the characteristic strength [f_ck], derives
    the Eurocode scalars, generates a strain grid, evaluates the compressive
    stress curve on it, splits the strain into elastic, inelastic and plastic
    parts, derives a damage variable, and writes two tables.

    Numbers: the script computes with Python floats and NumPy [float64]
    arrays.  The main development takes them as real numbers ([R] of the
    Standard Library), so every operation is the exact one that the float
    operation rounds: [x ** y] with a fractional exponent is [Rpower x y],
    [x ** 4] and [arr ** 2] are [pow], [round(x, 4)] rounds half to even on
    the fourth decimal, and [np.arange] has the length
    [ceil((stop - start) / step)] that its documentation gives.  Arrays are
    lists.

    The exact values differ from the script's in three places that matter:
    a grid value [i * 0.0001] is a rounded product, so at [start_index] the
    script's comparison [strain > eps_c1] can hold where the exact one does
    not; the ceiling of [np.arange] is taken of a rounded quotient, so the
    grid can be one value shorter; and a division by zero gives an infinity
    or a NaN, not a number.  The statements over [R] are therefore written
    so that they do not depend on what happens at [start_index], and the
    two runs in which the script departs from its own description are
    evaluated in binary64, in module [B64]. *)

From Stdlib Require Import Floats.
From Stdlib Require Uint63.
From Stdlib Require Import String Ascii.
From Stdlib Require Import Reals Lra Lia ZArith Bool List.
Import ListNotations.
Open Scope R_scope.
Set Warnings "-inexact-float".

(** ** Python built-ins used by the script *)

Module Py.

(** Nearest integer, ties to the even neighbour. *)
Definition round_half_even (x : R) : Z :=
  let f := Zfloor x in
  let d := x - IZR f in
  if Rlt_dec d (1 / 2) then f
  else if Rlt_dec (1 / 2) d then (f + 1)%Z
  else if Z.even f then f else (f + 1)%Z.

(** [round(x, ndigits)] for a float [x]. *)
Definition round (x : R) (ndigits : nat) : R :=
  IZR (round_half_even (x * 10 ^ ndigits)) / 10 ^ ndigits.

(** [abs(x)]. *)
Definition abs (x : R) : R := Rabs x.

End Py.

(** ** NumPy array operations used by the script *)

Module Np.

(** Element-wise binary operation of two arrays. *)
Fixpoint map2 {A B C : Type} (f : A -> B -> C) (xs : list A) (ys : list B)
  : list C :=
  match xs, ys with
  | x :: xs', y :: ys' => f x y :: map2 f xs' ys'
  | _, _ => []
  end.

(** [np.arange(start, stop, step)]: [ceil((stop - start) / step)] values
    [start + i * step].  Exact: NumPy takes the ceiling of the rounded
    quotient and rounds each product, see [B64.arange]. *)
Definition arange (start stop step : R) : list R :=
  map (fun i => start + INR i * step)
      (seq 0 (Z.to_nat (Zceil ((stop - start) / step)))).

(** [c * arr], [c + arr], [c - arr], [arr / c], [arr ** n]. *)
Definition scalar_mul (c : R) (v : list R) : list R := map (fun x => c * x) v.
Definition scalar_add (c : R) (v : list R) : list R := map (fun x => c + x) v.
Definition scalar_sub (c : R) (v : list R) : list R := map (fun x => c - x) v.
Definition div_scalar (v : list R) (c : R) : list R := map (fun x => x / c) v.
Definition power (v : list R) (n : nat) : list R := map (fun x => x ^ n) v.

(** [a - b], [a * b], [a / b] on arrays.  [Rdiv] is total ([x / 0 = 0]);
    NumPy's quotient by zero is an infinity or a NaN, see [B64]. *)
Definition sub (a b : list R) : list R := map2 Rminus a b.
Definition mul (a b : list R) : list R := map2 Rmult a b.
Definition div (a b : list R) : list R := map2 Rdiv a b.

(** [np.zeros_like(arr)]. *)
Definition zeros_like (v : list R) : list R := map (fun _ => 0) v.

(** [arr > c] and [arr >= c]: boolean arrays. *)
Definition gt_scalar (v : list R) (c : R) : list bool :=
  map (fun x => if Rgt_dec x c then true else false) v.
Definition ge_scalar (v : list R) (c : R) : list bool :=
  map (fun x => if Rge_dec x c then true else false) v.

(** [arr[mask]]: the elements at the positions where the mask holds. *)
Fixpoint take_mask (v : list R) (mask : list bool) : list R :=
  match v, mask with
  | x :: v', true :: m' => x :: take_mask v' m'
  | _ :: v', false :: m' => take_mask v' m'
  | _, _ => []
  end.

(** [arr[mask] = vals]: the values go, in order, to the positions where the
    mask holds; the other positions keep what they had.  NumPy raises when
    [vals] has fewer values than the mask has [True]s; here such a position
    keeps its value (the script always supplies exactly that many). *)
Fixpoint put_mask (a : list R) (mask : list bool) (vals : list R) : list R :=
  match a, mask with
  | x :: a', true :: m' =>
      match vals with
      | v :: vs => v :: put_mask a' m' vs
      | [] => x :: put_mask a' m' []
      end
  | x :: a', false :: m' => x :: put_mask a' m' vals
  | _, _ => a
  end.

(** [np.maximum(arr, c)]. *)
Definition maximum_scalar (v : list R) (c : R) : list R :=
  map (fun x => Rmax x c) v.

(** [np.maximum.accumulate(arr)]: running maximum, left to right. *)
Fixpoint accumulate_from (m : R) (v : list R) : list R :=
  match v with
  | [] => []
  | x :: v' => Rmax m x :: accumulate_from (Rmax m x) v'
  end.

Definition maximum_accumulate (v : list R) : list R :=
  match v with
  | [] => []
  | x :: v' => x :: accumulate_from x v'
  end.

(** [np.argmax] of a boolean array: the first position that holds [True],
    and 0 when none does.  NumPy raises on an empty array; here the answer
    is 0 (the strain grid is never empty). *)
Fixpoint first_true (b : list bool) : option nat :=
  match b with
  | [] => None
  | true :: _ => Some O
  | false :: b' => option_map S (first_true b')
  end.

Definition argmax (b : list bool) : nat :=
  match first_true b with Some i => i | None => O end.

(** [arr[i:]]. *)
Definition slice_from {A : Type} (v : list A) (i : nat) : list A := skipn i v.

End Np.

(** ** The script, step by step *)

(** Step 2. *)
Definition f_cm (fck : R) : R := fck + 8.

(** Step 3. *)
Definition E_cm_GPa (fck : R) : R := 22 * Rpower (f_cm fck / 10) 0.3.
Definition E_cm_MPa (fck : R) : R := E_cm_GPa fck * 1000.

(** Step 4: the formula, the cap, then the rounding. *)
Definition eps_c1_formula (fck : R) : R := 0.7 * Rpower (f_cm fck) 0.31 * 0.001.

Definition eps_c1_capped (fck : R) : R :=
  if Rgt_dec (eps_c1_formula fck) 0.0028 then 0.0028 else eps_c1_formula fck.

Definition eps_c1 (fck : R) : R := Py.round (eps_c1_capped fck) 4.

(** Step 5. *)
Definition eps_cu1 (fck : R) : R :=
  if Rlt_dec fck 50 then 0.0035
  else (2.8 + 27 * ((98 - f_cm fck) / 100) ^ 4) * 0.001.

(** Step 6. *)
Definition strain_values (fck : R) : list R :=
  Np.arange 0 (eps_cu1 fck + 0.0001) 0.0001.

(** The number of grid points, as an integer: the ceiling that [np.arange]
    takes. *)
Definition grid_points (fck : R) : Z :=
  Zceil ((eps_cu1 fck + 0.0001 - 0) / 0.0001).

(** Step 7. *)
Definition eta_values (fck : R) : list R :=
  Np.div_scalar (strain_values fck) (eps_c1 fck).

(** Step 8. *)
Definition k (fck : R) : R :=
  1.05 * E_cm_MPa fck * Py.abs (eps_c1 fck) / f_cm fck.

(** Step 9. *)
Definition stress_values (fck : R) : list R :=
  Np.scalar_mul (f_cm fck)
    (Np.div
       (Np.sub (Np.scalar_mul (k fck) (eta_values fck))
               (Np.power (eta_values fck) 2))
       (Np.scalar_add 1 (Np.scalar_mul (k fck - 2) (eta_values fck)))).

(** Step 10. *)
Definition elastic_strain_values (fck : R) : list R :=
  Np.div_scalar (stress_values fck) (E_cm_MPa fck).

(** Step 11.  The exact comparison fails at [start_index], where the strain
    is [eps_c1] itself; the script's can hold there, since its grid value is
    a rounded product, see [B64.mask]. *)
Definition mask (fck : R) : list bool :=
  Np.gt_scalar (strain_values fck) (eps_c1 fck).

Definition inelastic_strain_raw (fck : R) : list R :=
  Np.put_mask (Np.zeros_like (strain_values fck)) (mask fck)
    (Np.sub (Np.take_mask (strain_values fck) (mask fck))
            (Np.take_mask (elastic_strain_values fck) (mask fck))).

(** Step 12. *)
Definition damage_raw (fck : R) : list R :=
  Np.put_mask (Np.zeros_like (strain_values fck)) (mask fck)
    (Np.scalar_sub 1
       (Np.div_scalar (Np.take_mask (stress_values fck) (mask fck))
                      (f_cm fck))).

(** Step 13: from the raw inelastic strain and the raw damage. *)
Definition plastic_strain_raw (fck : R) : list R :=
  Np.put_mask (Np.zeros_like (strain_values fck)) (mask fck)
    (Np.sub
       (Np.take_mask (inelastic_strain_raw fck) (mask fck))
       (Np.mul
          (Np.div (Np.take_mask (damage_raw fck) (mask fck))
                  (Np.scalar_sub 1 (Np.take_mask (damage_raw fck) (mask fck))))
          (Np.div_scalar (Np.take_mask (stress_values fck) (mask fck))
                         (E_cm_MPa fck)))).

(** Step 14. *)
Definition ensure_non_negative_and_monotonic (arr : list R) : list R :=
  Np.maximum_accumulate (Np.maximum_scalar arr 0).

Definition inelastic_strain_values (fck : R) : list R :=
  ensure_non_negative_and_monotonic (inelastic_strain_raw fck).
Definition plastic_strain_values (fck : R) : list R :=
  ensure_non_negative_and_monotonic (plastic_strain_raw fck).
Definition damage_values (fck : R) : list R :=
  ensure_non_negative_and_monotonic (damage_raw fck).

(** What Step 14 is for: no negative value, and no value below the one
    before it. *)
Definition non_negative_non_decreasing (seq : list R) : Prop :=
  (forall i, (i < length seq)%nat -> 0 <= nth i seq 0)
  /\ (forall i, (S i < length seq)%nat -> nth i seq 0 <= nth (S i) seq 0).

(** Steps 15 and 16: the rows of the two data frames. *)
Definition start_index (fck : R) : nat :=
  Np.argmax (Np.ge_scalar (strain_values fck) (eps_c1 fck)).

Definition export_data (fck : R) : list (R * R) :=
  combine (Np.slice_from (stress_values fck) (start_index fck))
          (Np.slice_from (inelastic_strain_values fck) (start_index fck)).

Definition export_damage_data (fck : R) : list (R * R) :=
  combine (Np.slice_from (damage_values fck) (start_index fck))
          (Np.slice_from (inelastic_strain_values fck) (start_index fck)).

(** ** The same steps in binary64

    The script's numbers are IEEE 754 doubles.  Where rounding decides a
    comparison, an array length or the appearance of a NaN, the exact-real
    definitions above do not say what the script computes.  [B64] is the
    script over the kernel's binary64 floats: [+], [-], [*], [/] and the
    comparisons are the IEEE operations, [round(x, 4)] and the ceiling that
    [np.arange] takes are computed exactly from the float's mantissa and
    exponent, and [**] with a float left operand is libm's [pow], taken as a
    parameter.  [arr ** 2] is NumPy's square, [x * x]. *)

Module B64.

Local Open Scope float_scope.

(** An array position as a double. *)
Definition of_nat (i : nat) : float := of_uint63 (Uint63.of_Z (Z.of_nat i)).

(** The ceiling of a double, as an integer. *)
Definition ceil (x : float) : Z :=
  match Prim2SF x with
  | S754_finite false m e =>
      if (0 <=? e)%Z then (Zpos m * 2 ^ e)%Z
      else (- ((- Zpos m) / 2 ^ (- e)))%Z
  | S754_finite true m e =>
      if (0 <=? e)%Z then (- (Zpos m * 2 ^ e))%Z
      else (- (Zpos m / 2 ^ (- e)))%Z
  | _ => 0%Z
  end.

(** The integer nearest to [num / den], ties to even. *)
Definition half_even (num den : Z) : Z :=
  let q := (num / den)%Z in
  let r := (num mod den)%Z in
  match (2 * r ?= den)%Z with
  | Lt => q
  | Gt => (q + 1)%Z
  | Eq => if Z.even q then q else (q + 1)%Z
  end.

(** [round(x, 4)] for a positive double: the exact value of [x] times
    [10^4] is rounded half to even, and the result is the double nearest to
    that integer over [10^4]. *)
Definition round4 (x : float) : float :=
  match Prim2SF x with
  | S754_finite false m e =>
      let n := if (0 <=? e)%Z then (Zpos m * 2 ^ e * 10000)%Z
               else half_even (Zpos m * 10000) (2 ^ (- e)) in
      of_uint63 (Uint63.of_Z n) / 10000
  | _ => x
  end.

(** [np.maximum] on two doubles: [a] when [a >= b] or [a] is NaN, else [b];
    so a NaN on either side comes out. *)
Definition maximum (a b : float) : float :=
  if (b <=? a) || is_nan a then a else b.

(** [np.arange(start, stop, step)]: [ceil((stop - start) / step)] values
    [start + i * step], each computed in binary64. *)
Definition arange (start stop step : float) : list float :=
  map (fun i => start + of_nat i * step)
      (seq 0 (Z.to_nat (ceil ((stop - start) / step)))).

Definition zeros_like (v : list float) : list float := map (fun _ => 0) v.

Fixpoint take_mask (v : list float) (m : list bool) : list float :=
  match v, m with
  | x :: v', true :: m' => x :: take_mask v' m'
  | _ :: v', false :: m' => take_mask v' m'
  | _, _ => []
  end.

Fixpoint put_mask (a : list float) (m : list bool) (vals : list float)
  : list float :=
  match a, m with
  | x :: a', true :: m' =>
      match vals with
      | v :: vs => v :: put_mask a' m' vs
      | [] => x :: put_mask a' m' []
      end
  | x :: a', false :: m' => x :: put_mask a' m' vals
  | _, _ => a
  end.

Fixpoint accumulate_from (m : float) (v : list float) : list float :=
  match v with
  | [] => []
  | x :: v' => maximum m x :: accumulate_from (maximum m x) v'
  end.

Definition maximum_accumulate (v : list float) : list float :=
  match v with
  | [] => []
  | x :: v' => x :: accumulate_from x v'
  end.

(** Step 14. *)
Definition ensure_non_negative_and_monotonic (arr : list float) : list float :=
  maximum_accumulate (map (fun x => maximum x 0) arr).

Section Libm.

(** libm's [pow], which Python's [**] calls on two doubles. *)
Variable pow : float -> float -> float.

(** Steps 2 to 5. *)
Definition f_cm (fck : float) : float := fck + 8.

Definition E_cm_GPa (fck : float) : float := 22 * pow (f_cm fck / 10) 0.3.

Definition E_cm_MPa (fck : float) : float := E_cm_GPa fck * 1000.

Definition eps_c1 (fck : float) : float :=
  let e := 0.7 * pow (f_cm fck) 0.31 * 0.001 in
  round4 (if 0.0028 <? e then 0.0028 else e).

Definition eps_cu1 (fck : float) : float :=
  if fck <? 50 then 0.0035
  else (2.8 + 27 * pow ((98 - f_cm fck) / 100) 4) * 0.001.

(** Steps 6 to 10. *)
Definition strain_values (fck : float) : list float :=
  arange 0 (eps_cu1 fck + 0.0001) 0.0001.

Definition eta_values (fck : float) : list float :=
  map (fun s => s / eps_c1 fck) (strain_values fck).

Definition k (fck : float) : float :=
  1.05 * E_cm_MPa fck * abs (eps_c1 fck) / f_cm fck.

Definition stress_values (fck : float) : list float :=
  map (fun eta =>
         f_cm fck * ((k fck * eta - eta * eta) / (1 + (k fck - 2) * eta)))
      (eta_values fck).

Definition elastic_strain_values (fck : float) : list float :=
  map (fun s => s / E_cm_MPa fck) (stress_values fck).

(** Steps 11 to 13. *)
Definition mask (fck : float) : list bool :=
  map (fun s => eps_c1 fck <? s) (strain_values fck).

Definition inelastic_strain_raw (fck : float) : list float :=
  put_mask (zeros_like (strain_values fck)) (mask fck)
    (Np.map2 PrimFloat.sub
       (take_mask (strain_values fck) (mask fck))
       (take_mask (elastic_strain_values fck) (mask fck))).

Definition damage_raw (fck : float) : list float :=
  put_mask (zeros_like (strain_values fck)) (mask fck)
    (map (fun s => 1 - s / f_cm fck)
         (take_mask (stress_values fck) (mask fck))).

Definition plastic_strain_raw (fck : float) : list float :=
  put_mask (zeros_like (strain_values fck)) (mask fck)
    (Np.map2 PrimFloat.sub
       (take_mask (inelastic_strain_raw fck) (mask fck))
       (Np.map2 PrimFloat.mul
          (Np.map2 PrimFloat.div
             (take_mask (damage_raw fck) (mask fck))
             (map (fun d => 1 - d) (take_mask (damage_raw fck) (mask fck))))
          (map (fun s => s / E_cm_MPa fck)
               (take_mask (stress_values fck) (mask fck))))).

(** Step 14. *)
Definition inelastic_strain_values (fck : float) : list float :=
  ensure_non_negative_and_monotonic (inelastic_strain_raw fck).

Definition plastic_strain_values (fck : float) : list float :=
  ensure_non_negative_and_monotonic (plastic_strain_raw fck).

Definition damage_values (fck : float) : list float :=
  ensure_non_negative_and_monotonic (damage_raw fck).

End Libm.

(** The values that libm's [pow] returns in the two runs evaluated below,
    at [f_ck = 122.44825332641423] and at [f_ck = 60.66294210688686]. *)
Definition pow_run_122 (x y : float) : float :=
  if y =? 0.3 then 2.160884132759313
  else if y =? 0.31 then 4.526743255453593
  else 0.01108575549416498.

Definition pow_run_60 (x y : float) : float := 0.007407407407407433.

End B64.

(** ** Arrays: positions, lengths and masks *)

Lemma nth_map_lt {A B : Type} (f : A -> B) (l : list A) (i : nat) (d : A) (d' : B) :
  (i < length l)%nat -> nth i (map f l) d' = f (nth i l d).
Proof.
  intros Hi. rewrite (nth_indep _ d' (f d)) by (rewrite length_map; exact Hi).
  apply map_nth.
Qed.

Lemma length_map2 {A B C : Type} (f : A -> B -> C) (xs : list A) (ys : list B) :
  length (Np.map2 f xs ys) = Nat.min (length xs) (length ys).
Proof.
  revert ys. induction xs as [|x xs IH]; intros [|y ys]; simpl; auto.
Qed.

Lemma nth_map2 {A B C : Type} (f : A -> B -> C) (xs : list A) (ys : list B)
      (i : nat) (dx : A) (dy : B) (d : C) :
  (i < length xs)%nat -> (i < length ys)%nat ->
  nth i (Np.map2 f xs ys) d = f (nth i xs dx) (nth i ys dy).
Proof.
  revert ys i. induction xs as [|x xs IH]; intros [|y ys] [|i]; simpl;
    intros H1 H2; try lia; auto.
  apply IH; lia.
Qed.

Lemma take_mask_map (f : R -> R) (v : list R) (m : list bool) :
  Np.take_mask (map f v) m = map f (Np.take_mask v m).
Proof.
  revert m. induction v as [|x v IH]; intros [|[|] m]; simpl; auto.
  now rewrite IH.
Qed.

Lemma take_mask_map2 (f : R -> R -> R) (a b : list R) (m : list bool) :
  Np.take_mask (Np.map2 f a b) m
  = Np.map2 f (Np.take_mask a m) (Np.take_mask b m).
Proof.
  revert b m. induction a as [|x a IH]; intros [|y b] [|[|] m]; simpl; auto.
  - now destruct (Np.take_mask a m).
  - now rewrite IH.
Qed.

Lemma length_put_mask (a : list R) (m : list bool) (vals : list R) :
  length (Np.put_mask a m vals) = length a.
Proof.
  revert m vals. induction a as [|x a IH]; intros [|[|] m] vals; simpl; auto.
  destruct vals; simpl; now rewrite IH.
Qed.

(** Writing [v[mask]] into [a[mask]] copies [v] where the mask holds. *)
Lemma nth_put_take (a v : list R) (m : list bool) (i : nat) :
  length a = length v -> length m = length v -> (i < length v)%nat ->
  nth i (Np.put_mask a m (Np.take_mask v m)) 0
  = if nth i m false then nth i v 0 else nth i a 0.
Proof.
  revert v m i. induction a as [|x a IH]; intros [|y v] [|b m] i; simpl;
    intros Ha Hm Hi; try lia.
  destruct b; destruct i as [|i]; simpl; auto; apply IH; lia.
Qed.

Lemma nth_zeros_like (v : list R) (i : nat) : nth i (Np.zeros_like v) 0 = 0.
Proof.
  unfold Np.zeros_like. revert i. induction v; intros [|i]; simpl; auto.
Qed.

Lemma nth_gt_scalar (v : list R) (c : R) (i : nat) :
  (i < length v)%nat ->
  nth i (Np.gt_scalar v c) false = if Rgt_dec (nth i v 0) c then true else false.
Proof. intros Hi. unfold Np.gt_scalar. now rewrite (nth_map_lt _ _ _ 0). Qed.

(** ** All arrays of a run have the length of the strain grid *)

Lemma length_eta_values fck : length (eta_values fck) = length (strain_values fck).
Proof. unfold eta_values, Np.div_scalar. apply length_map. Qed.

Lemma length_stress_values fck :
  length (stress_values fck) = length (strain_values fck).
Proof.
  unfold stress_values, Np.scalar_mul, Np.scalar_add, Np.div, Np.sub, Np.power.
  rewrite length_map, !length_map2, !length_map, length_eta_values. lia.
Qed.

Lemma length_elastic_strain_values fck :
  length (elastic_strain_values fck) = length (strain_values fck).
Proof.
  unfold elastic_strain_values, Np.div_scalar.
  rewrite length_map. apply length_stress_values.
Qed.

Lemma length_mask fck : length (mask fck) = length (strain_values fck).
Proof. unfold mask, Np.gt_scalar. apply length_map. Qed.

Lemma length_zeros_like v : length (Np.zeros_like v) = length v.
Proof. unfold Np.zeros_like. apply length_map. Qed.

Lemma length_inelastic_strain_raw fck :
  length (inelastic_strain_raw fck) = length (strain_values fck).
Proof. unfold inelastic_strain_raw. now rewrite length_put_mask, length_zeros_like. Qed.

Lemma length_damage_raw fck :
  length (damage_raw fck) = length (strain_values fck).
Proof. unfold damage_raw. now rewrite length_put_mask, length_zeros_like. Qed.

Lemma length_plastic_strain_raw fck :
  length (plastic_strain_raw fck) = length (strain_values fck).
Proof. unfold plastic_strain_raw. now rewrite length_put_mask, length_zeros_like. Qed.

(** ** Steps 7 to 13, position by position *)

Lemma nth_eta_values fck i :
  (i < length (strain_values fck))%nat ->
  nth i (eta_values fck) 0 = nth i (strain_values fck) 0 / eps_c1 fck.
Proof. intros Hi. unfold eta_values, Np.div_scalar. now rewrite (nth_map_lt _ _ _ 0). Qed.

Lemma nth_stress_values fck i :
  (i < length (strain_values fck))%nat ->
  nth i (stress_values fck) 0
  = let eta := nth i (strain_values fck) 0 / eps_c1 fck in
    f_cm fck * ((k fck * eta - eta ^ 2) / (1 + (k fck - 2) * eta)).
Proof.
  intros Hi. pose proof (length_eta_values fck) as Le.
  unfold stress_values, Np.scalar_mul, Np.scalar_add, Np.div, Np.sub, Np.power.
  rewrite (nth_map_lt _ _ _ 0)
    by (rewrite !length_map2, !length_map; lia).
  rewrite (nth_map2 _ _ _ _ 0 0)
    by (rewrite ?length_map2, !length_map; lia).
  rewrite (nth_map2 _ _ _ _ 0 0) by (rewrite length_map; lia).
  rewrite !(nth_map_lt _ _ _ 0) by (rewrite ?length_map; lia).
  rewrite (nth_eta_values fck i Hi). reflexivity.
Qed.

Lemma nth_elastic_strain_values fck i :
  (i < length (strain_values fck))%nat ->
  nth i (elastic_strain_values fck) 0 = nth i (stress_values fck) 0 / E_cm_MPa fck.
Proof.
  intros Hi. unfold elastic_strain_values, Np.div_scalar.
  rewrite (nth_map_lt _ _ _ 0) by (rewrite length_stress_values; exact Hi).
  reflexivity.
Qed.

Lemma nth_mask fck i :
  (i < length (strain_values fck))%nat ->
  nth i (mask fck) false
  = if Rgt_dec (nth i (strain_values fck) 0) (eps_c1 fck) then true else false.
Proof. intros Hi. unfold mask. now apply nth_gt_scalar. Qed.

Lemma nth_inelastic_strain_raw fck i :
  (i < length (strain_values fck))%nat ->
  nth i (inelastic_strain_raw fck) 0
  = if Rgt_dec (nth i (strain_values fck) 0) (eps_c1 fck)
    then nth i (strain_values fck) 0 - nth i (elastic_strain_values fck) 0
    else 0.
Proof.
  intros Hi. pose proof (length_elastic_strain_values fck) as Le.
  unfold inelastic_strain_raw, Np.sub. rewrite <- take_mask_map2.
  rewrite nth_put_take;
    rewrite ?length_zeros_like, ?length_mask, ?length_map2; try lia.
  rewrite nth_mask, nth_zeros_like by exact Hi.
  destruct (Rgt_dec _ _); [|reflexivity].
  apply nth_map2; lia.
Qed.

Lemma nth_damage_raw fck i :
  (i < length (strain_values fck))%nat ->
  nth i (damage_raw fck) 0
  = if Rgt_dec (nth i (strain_values fck) 0) (eps_c1 fck)
    then 1 - nth i (stress_values fck) 0 / f_cm fck
    else 0.
Proof.
  intros Hi. pose proof (length_stress_values fck) as Ls.
  unfold damage_raw, Np.scalar_sub, Np.div_scalar.
  rewrite <- !take_mask_map.
  rewrite nth_put_take;
    rewrite ?length_zeros_like, ?length_mask, ?length_map; try lia.
  rewrite nth_mask, nth_zeros_like by exact Hi.
  destruct (Rgt_dec _ _); [|reflexivity].
  rewrite (nth_map_lt _ _ _ 0) by (rewrite length_map; lia).
  rewrite (nth_map_lt _ _ _ 0) by lia. reflexivity.
Qed.

Lemma nth_plastic_strain_raw fck i :
  (i < length (strain_values fck))%nat ->
  nth i (plastic_strain_raw fck) 0
  = if Rgt_dec (nth i (strain_values fck) 0) (eps_c1 fck)
    then nth i (inelastic_strain_raw fck) 0
         - nth i (damage_raw fck) 0 / (1 - nth i (damage_raw fck) 0)
           * (nth i (stress_values fck) 0 / E_cm_MPa fck)
    else 0.
Proof.
  intros Hi. pose proof (length_stress_values fck) as Ls.
  pose proof (length_damage_raw fck) as Ld.
  pose proof (length_inelastic_strain_raw fck) as Li.
  unfold plastic_strain_raw, Np.sub, Np.mul, Np.div, Np.scalar_sub, Np.div_scalar.
  rewrite <- !take_mask_map, <- !take_mask_map2.
  rewrite nth_put_take;
    rewrite ?length_zeros_like, ?length_mask, ?length_map2, ?length_map; try lia.
  rewrite nth_mask, nth_zeros_like by exact Hi.
  destruct (Rgt_dec _ _); [|reflexivity].
  rewrite (nth_map2 _ _ _ _ 0 0)
    by (rewrite ?length_map2, ?length_map; lia).
  rewrite (nth_map2 _ _ _ _ 0 0)
    by (rewrite ?length_map2, ?length_map; lia).
  rewrite (nth_map2 _ _ _ _ 0 0) by (rewrite ?length_map; lia).
  rewrite !(nth_map_lt _ _ _ 0) by lia. reflexivity.
Qed.

(** ** Rounding *)

Lemma round_half_even_near (x : R) (n : Z) :
  IZR n - 1 / 2 < x < IZR n + 1 / 2 -> Py.round_half_even x = n.
Proof.
  intros [Hlo Hhi]. unfold Py.round_half_even.
  pose proof (Zfloor_bound x) as [Hf1 Hf2].
  assert (Hcase : (Zfloor x = n \/ Zfloor x = n - 1)%Z).
  { assert (IZR (Zfloor x) < IZR (n + 1)) as H1 by (rewrite plus_IZR; lra).
    assert (IZR (n - 2) < IZR (Zfloor x)) as H2 by (rewrite minus_IZR; lra).
    apply lt_IZR in H1, H2. lia. }
  destruct Hcase as [E|E]; rewrite E in *.
  - destruct (Rlt_dec (x - IZR n) (1 / 2)); [reflexivity | lra].
  - rewrite minus_IZR in *.
    destruct (Rlt_dec (x - (IZR n - 1)) (1 / 2)); [lra|].
    destruct (Rlt_dec (1 / 2) (x - (IZR n - 1))); [lia | lra].
Qed.

Lemma round_half_even_upper (x : R) (n : Z) :
  x <= IZR n -> (Py.round_half_even x <= n)%Z.
Proof.
  intros Hx. unfold Py.round_half_even.
  pose proof (Zfloor_bound x) as [Hf1 Hf2].
  assert (Hle : (Zfloor x <= n)%Z) by (apply le_IZR; lra).
  destruct (Z.eq_dec (Zfloor x) n) as [E|NE].
  - rewrite E in *. destruct (Rlt_dec (x - IZR n) (1 / 2)); [lia | lra].
  - destruct (Rlt_dec _ _); [lia|].
    destruct (Rlt_dec _ _); [lia|]. destruct (Z.even _); lia.
Qed.

Lemma round_half_even_lower (x : R) (n : Z) :
  IZR n <= x -> (n <= Py.round_half_even x)%Z.
Proof.
  intros Hx. unfold Py.round_half_even.
  pose proof (Zfloor_lub n x Hx) as Hle.
  destruct (Rlt_dec _ _); [lia|].
  destruct (Rlt_dec _ _); [lia|]. destruct (Z.even _); lia.
Qed.

Lemma round4_near (x : R) (n : Z) :
  IZR n - 1 / 2 < x * 10000 < IZR n + 1 / 2 -> Py.round x 4 = IZR n / 10000.
Proof.
  intros H. unfold Py.round.
  replace (10 ^ 4) with 10000 by (simpl; lra).
  now rewrite (round_half_even_near _ n H).
Qed.

Lemma round4_upper (x : R) (n : Z) :
  x * 10000 <= IZR n -> Py.round x 4 <= IZR n / 10000.
Proof.
  intros H. unfold Py.round.
  replace (10 ^ 4) with 10000 by (simpl; lra).
  pose proof (IZR_le _ _ (round_half_even_upper _ n H)). lra.
Qed.

Lemma round4_lower (x : R) (n : Z) :
  IZR n <= x * 10000 -> IZR n / 10000 <= Py.round x 4.
Proof.
  intros H. unfold Py.round.
  replace (10 ^ 4) with 10000 by (simpl; lra).
  pose proof (IZR_le _ _ (round_half_even_lower _ n H)). lra.
Qed.

(** ** Powers with a rational exponent, bounded by integer powers *)

Lemma Rpower_root_pow (x y : R) (p q : nat) :
  0 < x -> y * INR q = INR p -> Rpower x y ^ q = x ^ p.
Proof.
  intros Hx Hy.
  assert (Hr : 0 < Rpower x y) by (unfold Rpower; apply exp_pos).
  rewrite <- (Rpower_pow q _ Hr), Rpower_mult, Hy.
  now apply Rpower_pow.
Qed.

Lemma Rpower_rational_gt (x y a : R) (p q : nat) :
  0 < x -> 0 <= a -> y * INR q = INR p -> a ^ q < x ^ p -> a < Rpower x y.
Proof.
  intros Hx Ha Hy Hlt.
  destruct (Rlt_le_dec a (Rpower x y)) as [H|H]; [exact H|exfalso].
  assert (Hr : 0 <= Rpower x y) by (left; unfold Rpower; apply exp_pos).
  pose proof (pow_incr _ _ q (conj Hr H)) as Hq.
  rewrite (Rpower_root_pow x y p q Hx Hy) in Hq. lra.
Qed.

Lemma Rpower_rational_lt (x y a : R) (p q : nat) :
  0 < x -> 0 <= a -> y * INR q = INR p -> x ^ p < a ^ q -> Rpower x y < a.
Proof.
  intros Hx Ha Hy Hlt.
  destruct (Rlt_le_dec (Rpower x y) a) as [H|H]; [exact H|exfalso].
  pose proof (pow_incr _ _ q (conj Ha H)) as Hq.
  rewrite (Rpower_root_pow x y p q Hx Hy) in Hq. lra.
Qed.

Lemma exponent_03 : 0.3 * INR 10 = INR 3.
Proof. rewrite !INR_IZR_INZ. simpl. lra. Qed.

Lemma exponent_031 : 0.31 * INR 100 = INR 31.
Proof. rewrite !INR_IZR_INZ. simpl. lra. Qed.

(** [a < x^(p/q)] or [x^(p/q) < a], from the comparison of [a^q] with
    [x^p], which [lra] computes. *)
Ltac rational_power p q Hexp :=
  first [ apply (Rpower_rational_gt _ _ _ p q)
        | apply (Rpower_rational_lt _ _ _ p q) ];
  [lra | lra | exact Hexp | lra].

Lemma Rpower_ge_1 (x y : R) : 1 <= x -> 0 <= y -> 1 <= Rpower x y.
Proof.
  intros Hx Hy. unfold Rpower.
  assert (0 <= ln x) by (rewrite <- ln_1; destruct Hx as [Hx|<-];
                         [left; apply ln_increasing; lra | right; reflexivity]).
  assert (0 <= y * ln x) by (apply Rmult_le_pos; assumption).
  pose proof (exp_ineq1_le (y * ln x)). lra.
Qed.

(** ** The strain grid *)

Lemma length_arange (start stop step : R) :
  length (Np.arange start stop step)
  = Z.to_nat (Zceil ((stop - start) / step)).
Proof. unfold Np.arange. now rewrite length_map, length_seq. Qed.

Lemma nth_arange (start stop step : R) (i : nat) :
  (i < length (Np.arange start stop step))%nat ->
  nth i (Np.arange start stop step) 0 = start + INR i * step.
Proof.
  intros Hi. rewrite length_arange in Hi. unfold Np.arange.
  rewrite (nth_map_lt _ _ _ O) by (rewrite length_seq; exact Hi).
  now rewrite seq_nth.
Qed.

Lemma eps_cu1_lower fck : 0.0028 <= eps_cu1 fck.
Proof.
  unfold eps_cu1. destruct (Rlt_dec fck 50); [lra|].
  assert (0 <= ((98 - f_cm fck) / 100) ^ 4).
  { replace 4%nat with (2 * 2)%nat by reflexivity. rewrite pow_mult.
    apply pow2_ge_0. }
  lra.
Qed.

Lemma grid_points_bound fck :
  IZR (grid_points fck) - 1 < (eps_cu1 fck + 0.0001) * 10000
  <= IZR (grid_points fck).
Proof.
  unfold grid_points.
  pose proof (Zceil_bound ((eps_cu1 fck + 0.0001 - 0) / 0.0001)). lra.
Qed.

Lemma grid_points_pos fck : (29 <= grid_points fck)%Z.
Proof.
  pose proof (grid_points_bound fck) as [_ H].
  pose proof (eps_cu1_lower fck).
  assert (Hlt : IZR 28 < IZR (grid_points fck)) by lra.
  apply lt_IZR in Hlt. lia.
Qed.

Lemma length_strain_values fck :
  length (strain_values fck) = Z.to_nat (grid_points fck).
Proof. unfold strain_values. apply length_arange. Qed.

Lemma INR_length_strain_values fck :
  INR (length (strain_values fck)) = IZR (grid_points fck).
Proof.
  rewrite length_strain_values, INR_IZR_INZ, Z2Nat.id; [reflexivity|].
  pose proof (grid_points_pos fck). lia.
Qed.

Lemma nth_strain_values fck i :
  (i < length (strain_values fck))%nat ->
  nth i (strain_values fck) 0 = INR i * 0.0001.
Proof.
  intros Hi. unfold strain_values in *. rewrite nth_arange by exact Hi. lra.
Qed.

(** ** Step 14: clamp, then running maximum *)

Lemma length_accumulate_from m v : length (Np.accumulate_from m v) = length v.
Proof. revert m. induction v as [|x v IH]; intros m; simpl; auto. Qed.

Lemma length_ensure arr :
  length (ensure_non_negative_and_monotonic arr) = length arr.
Proof.
  unfold ensure_non_negative_and_monotonic, Np.maximum_accumulate, Np.maximum_scalar.
  destruct arr as [|x arr]; simpl; [reflexivity|].
  now rewrite length_accumulate_from, length_map.
Qed.

Lemma accumulate_from_ge m v i :
  (i < length v)%nat -> m <= nth i (Np.accumulate_from m v) 0.
Proof.
  revert m i. induction v as [|x v IH]; intros m [|i] Hi; simpl in *; try lia.
  - apply Rmax_l.
  - apply Rle_trans with (Rmax m x); [apply Rmax_l | apply IH; lia].
Qed.

Lemma accumulate_from_step m v i :
  (S i < length v)%nat ->
  nth i (Np.accumulate_from m v) 0 <= nth (S i) (Np.accumulate_from m v) 0.
Proof.
  revert m i. induction v as [|x v IH]; intros m [|i] Hi; simpl in *; try lia.
  - apply (accumulate_from_ge (Rmax m x) v O). lia.
  - apply IH. lia.
Qed.

Lemma ensure_non_negative arr i :
  (i < length arr)%nat -> 0 <= nth i (ensure_non_negative_and_monotonic arr) 0.
Proof.
  unfold ensure_non_negative_and_monotonic, Np.maximum_accumulate, Np.maximum_scalar.
  destruct arr as [|x arr]; simpl; [lia|]. intros Hi.
  destruct i as [|i]; [apply Rmax_r|].
  apply Rle_trans with (Rmax x 0); [apply Rmax_r|].
  apply accumulate_from_ge. rewrite length_map. lia.
Qed.

Lemma ensure_monotonic arr i :
  (S i < length arr)%nat ->
  nth i (ensure_non_negative_and_monotonic arr) 0
  <= nth (S i) (ensure_non_negative_and_monotonic arr) 0.
Proof.
  unfold ensure_non_negative_and_monotonic, Np.maximum_accumulate, Np.maximum_scalar.
  destruct arr as [|x arr]; simpl; [lia|]. intros Hi.
  destruct i as [|i].
  - apply (accumulate_from_ge _ _ O). rewrite length_map. lia.
  - apply accumulate_from_step. rewrite length_map. lia.
Qed.

(** ** Step 15: the first position at or past the peak strain *)

Lemma first_true_some b i :
  Np.first_true b = Some i ->
  (i < length b)%nat /\ nth i b false = true
  /\ forall j, (j < i)%nat -> nth j b false = false.
Proof.
  revert i. induction b as [|[|] b IH]; intros i H; simpl in H; try discriminate.
  - injection H as <-. simpl. repeat split; [lia|]. intros j Hj; lia.
  - destruct (Np.first_true b) as [i'|]; simpl in H; [|discriminate].
    injection H as <-. destruct (IH i' eq_refl) as (H1 & H2 & H3).
    simpl. repeat split; [lia | exact H2 |].
    intros [|j] Hj; [reflexivity | apply H3; lia].
Qed.

Lemma first_true_none b :
  Np.first_true b = None -> forall j, nth j b false = false.
Proof.
  induction b as [|[|] b IH]; simpl; intros H j; try discriminate.
  - now destruct j.
  - destruct (Np.first_true b); [discriminate|].
    destruct j; [reflexivity | now apply IH].
Qed.

Lemma nth_ge_scalar (v : list R) (c : R) (i : nat) :
  (i < length v)%nat ->
  nth i (Np.ge_scalar v c) false = if Rge_dec (nth i v 0) c then true else false.
Proof. intros Hi. unfold Np.ge_scalar. now rewrite (nth_map_lt _ _ _ 0). Qed.

Lemma nth_slice_from {A : Type} (v : list A) (s j : nat) (d : A) :
  nth j (Np.slice_from v s) d = nth (s + j) v d.
Proof.
  unfold Np.slice_from. revert v. induction s as [|s IH]; intros v; simpl.
  - reflexivity.
  - destruct v as [|x v]; simpl; [now destruct j | apply IH].
Qed.

Lemma length_slice_from {A : Type} (v : list A) (s : nat) :
  length (Np.slice_from v s) = (length v - s)%nat.
Proof. unfold Np.slice_from. apply length_skipn. Qed.

Lemma argmax_first (b : list bool) :
  (exists i, (i < length b)%nat /\ nth i b false = true) ->
  (Np.argmax b < length b)%nat /\ nth (Np.argmax b) b false = true
  /\ forall j, (j < Np.argmax b)%nat -> nth j b false = false.
Proof.
  intros [i [Hi Ht]]. unfold Np.argmax.
  destruct (Np.first_true b) as [s|] eqn:E.
  - now apply first_true_some.
  - rewrite (first_true_none b E i) in Ht. discriminate.
Qed.

Lemma argmax_none (b : list bool) :
  (forall j, nth j b false = false) -> Np.argmax b = O.
Proof.
  intros H. unfold Np.argmax.
  destruct (Np.first_true b) as [s|] eqn:E; [|reflexivity].
  destruct (first_true_some b s E) as (_ & Ht & _).
  rewrite H in Ht. discriminate.
Qed.

Lemma last_as_nth {A : Type} (l : list A) (d : A) :
  last l d = nth (length l - 1) l d.
Proof.
  induction l as [|x [|y l] IH]; simpl in *; auto.
  now rewrite IH, Nat.sub_0_r.
Qed.

(** ** Bounds on the two characteristic strains *)


Lemma eps_c1_upper fck : eps_c1 fck <= 0.0028.
Proof.
  unfold eps_c1.
  assert (H : eps_c1_capped fck <= 0.0028)
    by (unfold eps_c1_capped; destruct (Rgt_dec _ _); lra).
  pose proof (round4_upper (eps_c1_capped fck) 28) as Hr. lra.
Qed.

Lemma eps_c1_lower fck : 0 < fck -> 0.0007 <= eps_c1 fck.
Proof.
  intros Hf. unfold eps_c1.
  assert (Hp : 1 <= Rpower (f_cm fck) 0.31)
    by (apply Rpower_ge_1; unfold f_cm; lra).
  assert (H : 0.0007 <= eps_c1_capped fck)
    by (unfold eps_c1_capped, eps_c1_formula; destruct (Rgt_dec _ _); lra).
  pose proof (round4_lower (eps_c1_capped fck) 7) as Hr. lra.
Qed.

Lemma strain_values_nonempty fck : (29 <= length (strain_values fck))%nat.
Proof.
  rewrite length_strain_values. pose proof (grid_points_pos fck). lia.
Qed.

Lemma last_strain_bounds fck :
  eps_cu1 fck <= nth (length (strain_values fck) - 1) (strain_values fck) 0
  < eps_cu1 fck + 0.0001.
Proof.
  pose proof (strain_values_nonempty fck) as Hn.
  rewrite nth_strain_values by lia.
  rewrite minus_INR by lia. rewrite INR_length_strain_values. simpl INR.
  pose proof (grid_points_bound fck). lra.
Qed.

Lemma start_index_first fck :
  (start_index fck < length (strain_values fck))%nat
  /\ nth (start_index fck) (strain_values fck) 0 >= eps_c1 fck
  /\ forall j, (j < start_index fck)%nat ->
               nth j (strain_values fck) 0 < eps_c1 fck.
Proof.
  pose proof (strain_values_nonempty fck) as Hn.
  assert (Hlen : length (Np.ge_scalar (strain_values fck) (eps_c1 fck))
                 = length (strain_values fck))
    by (unfold Np.ge_scalar; apply length_map).
  destruct (argmax_first (Np.ge_scalar (strain_values fck) (eps_c1 fck)))
    as (H1 & H2 & H3).
  { exists (length (strain_values fck) - 1)%nat. split; [lia|].
    rewrite nth_ge_scalar by lia.
    pose proof (last_strain_bounds fck). pose proof (eps_cu1_lower fck).
    pose proof (eps_c1_upper fck).
    destruct (Rge_dec _ _); [reflexivity | lra]. }
  fold (start_index fck) in H1, H2, H3. rewrite Hlen in H1.
  split; [exact H1|]. split.
  - rewrite nth_ge_scalar in H2 by exact H1.
    destruct (Rge_dec _ _); [assumption | discriminate].
  - intros j Hj. specialize (H3 j Hj).
    rewrite nth_ge_scalar in H3 by lia.
    destruct (Rge_dec _ _); [discriminate | lra].
Qed.

(** ** The primitives on small inputs *)

Lemma round_half_even_tie (n : Z) :
  Py.round_half_even (IZR n + 1 / 2) = if Z.even n then n else (n + 1)%Z.
Proof.
  unfold Py.round_half_even.
  rewrite (Zfloor_eq n) by lra.
  destruct (Rlt_dec _ _); [lra|]. destruct (Rlt_dec _ _); [lra|]. reflexivity.
Qed.

Example round_down_on_even_tie : Py.round_half_even 2.5 = 2%Z.
Proof. replace 2.5 with (IZR 2 + 1 / 2) by lra. apply round_half_even_tie. Qed.

Example round_up_on_odd_tie : Py.round_half_even 3.5 = 4%Z.
Proof. replace 3.5 with (IZR 3 + 1 / 2) by lra. apply round_half_even_tie. Qed.

Example round4_of_0_00216 : Py.round 0.00216 4 = 0.0022.
Proof. rewrite (round4_near _ 22); lra. Qed.

Example take_mask_3 : Np.take_mask [1; 2; 3] [false; true; true] = [2; 3].
Proof. reflexivity. Qed.

Example put_mask_3 : Np.put_mask [0; 0; 0] [false; true; true] [5; 7] = [0; 5; 7].
Proof. reflexivity. Qed.

Example argmax_first_true : Np.argmax [false; false; true; false; true] = 2%nat.
Proof. reflexivity. Qed.

Example argmax_all_false : Np.argmax [false; false; false] = O.
Proof. reflexivity. Qed.

Example ensure_on_4 :
  ensure_non_negative_and_monotonic [-1; 2; 1; 3] = [0; 2; 2; 3].
Proof.
  unfold ensure_non_negative_and_monotonic. simpl.
  rewrite (Rmax_right (-1) 0), (Rmax_left 2 0), (Rmax_left 1 0),
          (Rmax_left 3 0) by lra.
  rewrite (Rmax_right 0 2) by lra. rewrite (Rmax_left 2 1) by lra.
  rewrite (Rmax_right 2 3) by lra. reflexivity.
Qed.

Example arange_3 :
  Np.arange 0 0.00025 0.0001
  = [0 + 0 * 0.0001; 0 + 1 * 0.0001; 0 + (1 + 1) * 0.0001].
Proof.
  unfold Np.arange. rewrite (Zceil_eq 3) by lra. reflexivity.
Qed.

(** * The claims *)

(** C1. For every [f_ck > 0] and every position [i] of the strain grid, with
    [eta = strain_values[i] / eps_c1]: the stress is
    [f_cm * (k * eta - eta^2) / (1 + (k - 2) * eta)], by the one formula
    whether the strain is below or above [eps_c1]; the elastic strain is the
    stress over [E_cm] in MPa; and before normalization the inelastic
    strain, the damage and the plastic strain are [strain - elastic],
    [1 - stress / f_cm] and
    [inelastic - damage / (1 - damage) * (stress / E_cm)] where the strain
    exceeds [eps_c1], and 0 where it does not. *)
Theorem raw_curve_formulas (fck : R) (i : nat) :
  0 < fck -> (i < length (strain_values fck))%nat ->
  let s := nth i (strain_values fck) 0 in
  let eta := s / eps_c1 fck in
  let sigma := nth i (stress_values fck) 0 in
  let el := nth i (elastic_strain_values fck) 0 in
  let inel := nth i (inelastic_strain_raw fck) 0 in
  let dmg := nth i (damage_raw fck) 0 in
  let pl := nth i (plastic_strain_raw fck) 0 in
  sigma = f_cm fck * (k fck * eta - eta ^ 2) / (1 + (k fck - 2) * eta)
  /\ el = sigma / E_cm_MPa fck
  /\ (s > eps_c1 fck ->
      inel = s - el /\ dmg = 1 - sigma / f_cm fck
      /\ pl = inel - dmg / (1 - dmg) * (sigma / E_cm_MPa fck))
  /\ (s <= eps_c1 fck -> inel = 0 /\ dmg = 0 /\ pl = 0).
Proof.
  intros _ Hi. cbv zeta.
  rewrite (nth_inelastic_strain_raw fck i Hi), (nth_damage_raw fck i Hi),
          (nth_plastic_strain_raw fck i Hi).
  rewrite (nth_inelastic_strain_raw fck i Hi), (nth_damage_raw fck i Hi).
  rewrite (nth_elastic_strain_values fck i Hi).
  split; [|split; [reflexivity|split]].
  - rewrite (nth_stress_values fck i Hi). cbv zeta.
    unfold Rdiv. now rewrite Rmult_assoc.
  - intros Hs. destruct (Rgt_dec _ _); [|contradiction]. now repeat split.
  - intros Hs. destruct (Rgt_dec _ _); [lra|]. now repeat split.
Qed.

(** The run at [f_ck = 30], used to instantiate the statements. *)
Lemma eps_cu1_30 : eps_cu1 30 = 0.0035.
Proof. unfold eps_cu1. destruct (Rlt_dec 30 50); [reflexivity | lra]. Qed.

Lemma grid_points_30 : grid_points 30 = 36%Z.
Proof. unfold grid_points. rewrite eps_cu1_30. apply Zceil_eq. lra. Qed.

Lemma length_strain_values_30 : length (strain_values 30) = 36%nat.
Proof. rewrite length_strain_values, grid_points_30. reflexivity. Qed.

Lemma Rpower_38_bounds : 3.088 < Rpower 38 0.31 < 3.089.
Proof.
  split.
  - rational_power 31%nat 100%nat exponent_031.
  - rational_power 31%nat 100%nat exponent_031.
Qed.

Lemma eps_c1_formula_30 : 0.0021616 < eps_c1_formula 30 < 0.0021623.
Proof.
  unfold eps_c1_formula, f_cm. replace (30 + 8) with 38 by lra.
  pose proof Rpower_38_bounds. lra.
Qed.

Lemma eps_c1_30 : eps_c1 30 = 0.0022.
Proof.
  pose proof eps_c1_formula_30 as Hf. unfold eps_c1, eps_c1_capped.
  destruct (Rgt_dec _ _); [lra|].
  rewrite (round4_near _ 22); lra.
Qed.

Lemma nth_strain_values_30 i :
  (i < 36)%nat -> nth i (strain_values 30) 0 = INR i * 0.0001.
Proof. intros Hi. apply nth_strain_values. rewrite length_strain_values_30. exact Hi. Qed.

Lemma raw_curve_formulas_witness :
  0 < 30 /\ (30 < length (strain_values 30))%nat
  /\ nth 30 (strain_values 30) 0 > eps_c1 30
  /\ nth 30 (damage_raw 30) 0 = 1 - nth 30 (stress_values 30) 0 / f_cm 30.
Proof.
  assert (H0 : 0 < 30) by lra.
  assert (Hi : (30 < length (strain_values 30))%nat)
    by (rewrite length_strain_values_30; lia).
  assert (Hs : nth 30 (strain_values 30) 0 > eps_c1 30).
  { rewrite nth_strain_values_30 by lia. rewrite eps_c1_30.
    rewrite INR_IZR_INZ. simpl. lra. }
  repeat split; try assumption.
  destruct (raw_curve_formulas 30 30 H0 Hi) as (_ & _ & Hmask & _).
  apply (Hmask Hs).
Defined.

(** C2, at [f_ck = 122.44825332641423] in binary64.  With the three values
    that libm's [pow] returns on this run, [k] equals [eta] at position 30,
    so the stress there is 0 and the raw damage is 1; Step 13 divides by
    [1 - damage = 0], the quotient is infinite and its product with
    [stress / E_cm = 0] is NaN; Step 14 keeps the NaN and hands it on to
    every later position.  The normalized plastic strain is then neither
    non-negative at position 30 nor non-decreasing from 30 to 31: both
    comparisons are false. *)
Theorem normalization_keeps_nan (pow : float -> float -> float) :
  pow 13.044825332641423%float 0.3%float = 2.160884132759313%float ->
  pow 130.44825332641423%float 0.31%float = 4.526743255453593%float ->
  pow (-0.32448253326414234)%float 4%float = 0.01108575549416498%float ->
  let fck := 122.44825332641423%float in
  let pl := B64.plastic_strain_values pow fck in
  length (B64.strain_values pow fck) = 32%nat
  /\ B64.k pow fck = nth 30 (B64.eta_values pow fck) 0%float
  /\ nth 30 (B64.stress_values pow fck) 0%float = 0%float
  /\ nth 30 (B64.damage_raw pow fck) 0%float = 1%float
  /\ is_nan (nth 30 (B64.plastic_strain_raw pow fck) 0%float) = true
  /\ is_nan (nth 30 pl 0%float) = true
  /\ is_nan (nth 31 pl 0%float) = true
  /\ (0 <=? nth 30 pl 0)%float = false
  /\ (nth 30 pl 0 <=? nth 31 pl 0)%float = false.
Proof.
  intros H1 H2 H3. cbv zeta.
  assert (Ef : B64.f_cm 122.44825332641423%float = 130.44825332641423%float)
    by (vm_compute; reflexivity).
  assert (EE : B64.E_cm_MPa pow 122.44825332641423%float
               = 47539.45092070489%float).
  { unfold B64.E_cm_MPa, B64.E_cm_GPa, B64.f_cm. vm_compute.
    rewrite H1. vm_compute. reflexivity. }
  assert (Ee : B64.eps_c1 pow 122.44825332641423%float = 0.0028%float).
  { unfold B64.eps_c1, B64.f_cm. vm_compute. rewrite H2.
    vm_compute. reflexivity. }
  assert (Eu : B64.eps_cu1 pow 122.44825332641423%float
               = 0.0030993153983424546%float).
  { unfold B64.eps_cu1, B64.f_cm. vm_compute. rewrite H3.
    vm_compute. reflexivity. }
  unfold B64.plastic_strain_values, B64.plastic_strain_raw, B64.damage_raw,
    B64.inelastic_strain_raw, B64.mask, B64.elastic_strain_values,
    B64.stress_values, B64.eta_values, B64.k, B64.strain_values.
  rewrite !EE, !Ee, !Eu, !Ef.
  repeat split; vm_compute; reflexivity.
Qed.

Lemma normalization_keeps_nan_witness :
  B64.pow_run_122 13.044825332641423%float 0.3%float
  = 2.160884132759313%float
  /\ B64.pow_run_122 130.44825332641423%float 0.31%float
     = 4.526743255453593%float
  /\ B64.pow_run_122 (-0.32448253326414234)%float 4%float
     = 0.01108575549416498%float
  /\ is_nan (nth 30 (B64.plastic_strain_values B64.pow_run_122
                       122.44825332641423%float) 0%float) = true.
Proof.
  assert (H1 : B64.pow_run_122 13.044825332641423%float 0.3%float
               = 2.160884132759313%float) by reflexivity.
  assert (H2 : B64.pow_run_122 130.44825332641423%float 0.31%float
               = 4.526743255453593%float) by reflexivity.
  assert (H3 : B64.pow_run_122 (-0.32448253326414234)%float 4%float
               = 0.01108575549416498%float) by reflexivity.
  split; [exact H1|]. split; [exact H2|]. split; [exact H3|].
  destruct (normalization_keeps_nan B64.pow_run_122 H1 H2 H3)
    as (_ & _ & _ & _ & _ & H & _).
  exact H.
Defined.

(** C3, at [f_ck = 60.66294210688686] in binary64.  With the value that
    libm's [pow] returns for the fourth power, [eps_cu1] is
    0.0030000000000000005; the quotient [(eps_cu1 + 0.0001) / 0.0001]
    rounds to exactly 31, so [np.arange] makes 31 values, the last is
    0.003, and the comparison [eps_cu1 <= last] is false: the grid stops
    one step short of what the added 0.0001 is there to include. *)
Theorem strain_grid_stops_short (pow : float -> float -> float) :
  pow 0.2933705789311314%float 4%float = 0.007407407407407433%float ->
  let fck := 60.66294210688686%float in
  B64.eps_cu1 pow fck = 0.0030000000000000005%float
  /\ ((B64.eps_cu1 pow fck + 0.0001) / 0.0001)%float = 31%float
  /\ length (B64.strain_values pow fck) = 31%nat
  /\ last (B64.strain_values pow fck) 0%float = 0.003%float
  /\ (B64.eps_cu1 pow fck <=? last (B64.strain_values pow fck) 0)%float
     = false.
Proof.
  intros H. cbv zeta.
  assert (E : B64.eps_cu1 pow 60.66294210688686%float
              = 0.0030000000000000005%float).
  { unfold B64.eps_cu1, B64.f_cm. vm_compute. rewrite H.
    vm_compute. reflexivity. }
  unfold B64.strain_values. rewrite E.
  repeat split; vm_compute; reflexivity.
Qed.

Lemma strain_grid_stops_short_witness :
  B64.pow_run_60 0.2933705789311314%float 4%float
  = 0.007407407407407433%float
  /\ length (B64.strain_values B64.pow_run_60 60.66294210688686%float)
     = 31%nat
  /\ (B64.eps_cu1 B64.pow_run_60 60.66294210688686%float
      <=? last (B64.strain_values B64.pow_run_60 60.66294210688686%float)
               0)%float
     = false.
Proof.
  assert (H : B64.pow_run_60 0.2933705789311314%float 4%float
              = 0.007407407407407433%float) by reflexivity.
  split; [exact H|].
  destruct (strain_grid_stops_short B64.pow_run_60 H)
    as (_ & _ & H3 & _ & H5).
  split; [exact H3 | exact H5].
Defined.



(** C5. For every [f_ck > 0], with [f_cm = f_ck + 8]: [eps_cu1] is 0.0035
    when [f_ck < 50], and [(2.8 + 27 * ((98 - f_cm) / 100)^4) * 1e-3]
    otherwise. *)
Theorem eps_cu1_branches (fck : R) :
  0 < fck ->
  f_cm fck = fck + 8
  /\ (fck < 50 -> eps_cu1 fck = 0.0035)
  /\ (50 <= fck ->
      eps_cu1 fck = (2.8 + 27 * ((98 - f_cm fck) / 100) ^ 4) * 1e-3).
Proof.
  intros _. unfold eps_cu1. replace 1e-3 with 0.001 by lra.
  split; [reflexivity|].
  split; intros H; destruct (Rlt_dec fck 50); try reflexivity; lra.
Qed.

(** The two sides of the branch: 0.0035 at 49, 0.0034912 at 50. *)
Lemma eps_cu1_branches_witness :
  0 < 49 /\ 49 < 50 /\ eps_cu1 49 = 0.0035
  /\ 0 < 50 /\ 50 <= 50 /\ eps_cu1 50 = 0.0034912.
Proof.
  assert (H49 : 0 < 49) by lra. assert (L49 : 49 < 50) by lra.
  assert (H50 : 0 < 50) by lra. assert (L50 : 50 <= 50) by lra.
  destruct (eps_cu1_branches 49 H49) as (_ & Hlow & _).
  destruct (eps_cu1_branches 50 H50) as (_ & _ & Hhigh).
  repeat split; try assumption.
  - exact (Hlow L49).
  - rewrite (Hhigh L50). unfold f_cm. lra.
Defined.

(** C6. For every [f_ck > 0] the ultimate strain is at least the strain at
    the peak: [eps_cu1 >= eps_c1], and [eps_cu1] is at least the cap 0.0028
    on either branch; so the export starts inside the grid and the exported
    range has at least one row. *)
Theorem eps_cu1_at_least_eps_c1 (fck : R) :
  0 < fck ->
  eps_c1 fck <= eps_cu1 fck
  /\ 0.0028 <= eps_cu1 fck
  /\ (start_index fck < length (strain_values fck))%nat
  /\ export_data fck <> [].
Proof.
  intros _. pose proof (eps_c1_upper fck). pose proof (eps_cu1_lower fck).
  pose proof (start_index_first fck) as (Hs & _).
  repeat split; try lra; try exact Hs.
  intros E. apply (f_equal (@length _)) in E.
  unfold export_data in E.
  rewrite length_combine, !length_slice_from, length_stress_values in E.
  unfold inelastic_strain_values in E.
  rewrite length_ensure, length_inelastic_strain_raw in E. simpl in E. lia.
Qed.

Lemma eps_cu1_at_least_eps_c1_witness :
  0 < 60 /\ eps_c1 60 <= eps_cu1 60 /\ 0.0028 <= eps_cu1 60.
Proof.
  assert (H0 : 0 < 60) by lra.
  destruct (eps_cu1_at_least_eps_c1 60 H0) as (H1 & H2 & _).
  repeat split; assumption.
Defined.

(** C7. For every [f_ck > 0], [start_index] is the first position whose
    strain is at least [eps_c1] ([np.argmax] gives 0 for a mask that holds
    nowhere); each exported table has [len(strain_values) - start_index]
    rows; row [j] of the first pairs the stress with the normalized
    inelastic strain at position [start_index + j], row [j] of the second
    pairs the normalized damage with the same inelastic strain. *)
Theorem export_slicing (fck : R) :
  0 < fck ->
  let sv := strain_values fck in
  let s := start_index fck in
  (s < length sv)%nat
  /\ nth s sv 0 >= eps_c1 fck
  /\ (forall j, (j < s)%nat -> nth j sv 0 < eps_c1 fck)
  /\ (forall b, (forall j, nth j b false = false) -> Np.argmax b = O)
  /\ length (export_data fck) = (length sv - s)%nat
  /\ length (export_damage_data fck) = (length sv - s)%nat
  /\ (forall j, (j < length sv - s)%nat ->
        nth j (export_data fck) (0, 0)
        = (nth (s + j) (stress_values fck) 0,
           nth (s + j) (inelastic_strain_values fck) 0)
        /\ nth j (export_damage_data fck) (0, 0)
           = (nth (s + j) (damage_values fck) 0,
              nth (s + j) (inelastic_strain_values fck) 0)).
Proof.
  intros _. cbv zeta.
  destruct (start_index_first fck) as (H1 & H2 & H3).
  assert (Li : length (inelastic_strain_values fck) = length (strain_values fck))
    by (unfold inelastic_strain_values;
        now rewrite length_ensure, length_inelastic_strain_raw).
  assert (Ld : length (damage_values fck) = length (strain_values fck))
    by (unfold damage_values; now rewrite length_ensure, length_damage_raw).
  pose proof (length_stress_values fck) as Ls.
  split; [exact H1|]. split; [exact H2|]. split; [exact H3|].
  split; [exact argmax_none|].
  unfold export_data, export_damage_data.
  rewrite !length_combine, !length_slice_from, Li, Ld, Ls, Nat.min_id.
  split; [reflexivity|]. split; [reflexivity|].
  intros j Hj.
  rewrite !combine_nth by (rewrite !length_slice_from; lia).
  now rewrite !nth_slice_from.
Qed.

Lemma export_slicing_witness :
  0 < 30
  /\ length (export_data 30)
     = (length (strain_values 30) - start_index 30)%nat
  /\ nth (start_index 30) (strain_values 30) 0 >= eps_c1 30.
Proof.
  assert (H0 : 0 < 30) by lra.
  destruct (export_slicing 30 H0) as (_ & H2 & _ & _ & H5 & _).
  repeat split; assumption.
Defined.

(** ** The run at [f_ck = 30] *)

Lemma Rpower_3_8_bounds : 1.4925 < Rpower 3.8 0.3 < 1.4927.
Proof.
  split.
  - rational_power 3%nat 10%nat exponent_03.
  - rational_power 3%nat 10%nat exponent_03.
Qed.

Lemma E_cm_GPa_30 : 32.835 < E_cm_GPa 30 < 32.8394.
Proof.
  unfold E_cm_GPa, f_cm. replace ((30 + 8) / 10) with 3.8 by lra.
  pose proof Rpower_3_8_bounds. lra.
Qed.

(** C8, as the specification words it, fails: at [f_ck = 30] the formula
    [0.7 * 38^0.31 * 1e-3] is not 0.00213 to the last digit given, and
    [eps_c1] is not 0.0021 to four decimals. *)
Lemma example_30_not_as_specified :
  ~ Rabs (eps_c1_formula 30 - 0.00213) < 0.000005
  /\ ~ Rabs (eps_c1 30 - 0.0021) < 0.00005.
Proof.
  pose proof eps_c1_formula_30 as Hf. split; intros H.
  - apply Rabs_def2 in H. lra.
  - rewrite eps_c1_30 in H. apply Rabs_def2 in H. lra.
Qed.

(** C8, amended. For [f_ck = 30]: [f_cm = 38]; [E_cm] is 32.84 GPa to two
    decimals; the formula [0.7 * 38^0.31 * 1e-3] gives 0.00216 to five
    decimals, under the cap 0.0028, and [eps_c1 = 0.0022]; [eps_cu1 =
    0.0035] since [30 < 50]; the strain grid has exactly 36 points, from 0
    to 0.0035. *)
Theorem example_30 :
  f_cm 30 = 38
  /\ Rabs (E_cm_GPa 30 - 32.84) < 0.005
  /\ Rabs (eps_c1_formula 30 - 0.00216) < 0.000005
  /\ eps_c1_formula 30 < 0.0028
  /\ eps_c1 30 = 0.0022
  /\ eps_cu1 30 = 0.0035
  /\ length (strain_values 30) = 36%nat
  /\ nth 0 (strain_values 30) 0 = 0
  /\ last (strain_values 30) 0 = 0.0035.
Proof.
  pose proof eps_c1_formula_30 as Hf. pose proof E_cm_GPa_30 as HE.
  split; [unfold f_cm; lra|].
  split; [apply Rabs_def1; lra|].
  split; [apply Rabs_def1; lra|].
  split; [lra|].
  split; [exact eps_c1_30|].
  split; [exact eps_cu1_30|].
  split; [exact length_strain_values_30|].
  split.
  - rewrite nth_strain_values_30 by lia. simpl. lra.
  - rewrite last_as_nth, length_strain_values_30.
    rewrite nth_strain_values_30 by lia. simpl Nat.sub.
    rewrite INR_IZR_INZ. simpl. lra.
Qed.

(** ** The run at [f_ck = 129] *)

Lemma f_cm_129 : f_cm 129 = 137.
Proof. unfold f_cm. lra. Qed.

Lemma eps_cu1_129 : eps_cu1 129 = 0.00342462907.
Proof.
  unfold eps_cu1. destruct (Rlt_dec 129 50); [lra|].
  rewrite f_cm_129. lra.
Qed.

Lemma length_strain_values_129 : length (strain_values 129) = 36%nat.
Proof.
  rewrite length_strain_values.
  replace (grid_points 129) with 36%Z; [reflexivity|].
  symmetry. unfold grid_points. rewrite eps_cu1_129. apply Zceil_eq. lra.
Qed.

Lemma eps_c1_129 : eps_c1 129 = 0.0028.
Proof.
  assert (Hp : 4 < Rpower 137 0.31)
    by rational_power 31%nat 100%nat exponent_031.
  unfold eps_c1, eps_c1_capped, eps_c1_formula. rewrite f_cm_129.
  destruct (Rgt_dec _ _); [|lra].
  rewrite (round4_near _ 28); lra.
Qed.

Lemma Rpower_13_7_bounds : 2.192 < Rpower 13.7 0.3 < 2.1935.
Proof.
  split.
  - rational_power 3%nat 10%nat exponent_03.
  - rational_power 3%nat 10%nat exponent_03.
Qed.

Lemma k_129 : 30 / 29 < k 129 < 29 / 28.
Proof.
  unfold k, E_cm_MPa, E_cm_GPa, Py.abs. rewrite eps_c1_129, f_cm_129.
  replace (137 / 10) with 13.7 by lra.
  rewrite Rabs_pos_eq by lra.
  pose proof Rpower_13_7_bounds. lra.
Qed.

Lemma stress_129_at_29 : nth 29 (stress_values 129) 0 < 0.
Proof.
  rewrite nth_stress_values by (rewrite length_strain_values_129; lia).
  rewrite nth_strain_values by (rewrite length_strain_values_129; lia).
  rewrite eps_c1_129, f_cm_129. cbv zeta.
  replace (INR 29 * 0.0001 / 0.0028) with (29 / 28)
    by (rewrite INR_IZR_INZ; simpl; lra).
  pose proof k_129 as [Hk1 Hk2].
  set (kk := k 129) in *.
  assert (Hn : kk * (29 / 28) - (29 / 28) ^ 2 < 0) by nra.
  assert (Hd : 0 < 1 + (kk - 2) * (29 / 28)) by nra.
  pose proof (Rinv_0_lt_compat _ Hd) as Hi.
  unfold Rdiv at 1. nra.
Qed.

(** C10, as worded, fails at [f_ck = 129]: at position 29 the strain 0.0029
    is past [eps_c1 = 0.0028], yet the stress is negative and the raw
    damage exceeds 1. *)
Lemma damage_below_one_fails_at_129 :
  0 < 129
  /\ (29 < length (strain_values 129))%nat
  /\ nth 29 (strain_values 129) 0 > eps_c1 129
  /\ ~ nth 29 (stress_values 129) 0 > 0
  /\ ~ nth 29 (damage_raw 129) 0 < 1.
Proof.
  assert (Hi : (29 < length (strain_values 129))%nat)
    by (rewrite length_strain_values_129; lia).
  assert (Hs : nth 29 (strain_values 129) 0 > eps_c1 129).
  { rewrite nth_strain_values by exact Hi. rewrite eps_c1_129.
    rewrite INR_IZR_INZ. simpl. lra. }
  pose proof stress_129_at_29 as Hneg.
  split; [lra|]. split; [exact Hi|]. split; [exact Hs|]. split; [lra|].
  rewrite nth_damage_raw by exact Hi.
  destruct (Rgt_dec _ _); [|contradiction].
  rewrite f_cm_129. lra.
Qed.

Lemma f_cm_pos fck : 0 < fck -> 0 < f_cm fck.
Proof. unfold f_cm. lra. Qed.

(** Below the curve parameter [k] and past the peak, the Eurocode expression
    is positive. *)
Lemma curve_positive (kk eta : R) :
  1 < eta -> eta < kk ->
  0 < (kk * eta - eta ^ 2) / (1 + (kk - 2) * eta).
Proof.
  intros H1 Hk.
  assert (Hn : 0 < kk * eta - eta ^ 2) by nra.
  assert (Hd : 0 < 1 + (kk - 2) * eta).
  { destruct (Rle_lt_dec 2 kk) as [H2|H2]; [nra|].
    assert ((2 - kk) * eta < (2 - kk) * kk) by nra.
    assert (0 <= (kk - 1) ^ 2) by apply pow2_ge_0.
    nra. }
  now apply Rdiv_lt_0_compat.
Qed.

(** C10, amended. For every [f_ck > 0] and every position [i] whose strain
    exceeds [eps_c1]: the divisor [1 - damage] of the plastic-strain step is
    [stress / f_cm], so the raw damage is below 1 exactly when the stress is
    positive; and when moreover [eta = strain / eps_c1] is below [k], the
    stress is positive, the raw damage is below 1 and the divisor is not
    zero. *)
Theorem damage_below_one_under_k (fck : R) (i : nat) :
  0 < fck -> (i < length (strain_values fck))%nat ->
  nth i (strain_values fck) 0 > eps_c1 fck ->
  let sigma := nth i (stress_values fck) 0 in
  let dmg := nth i (damage_raw fck) 0 in
  1 - dmg = sigma / f_cm fck
  /\ (dmg < 1 <-> sigma > 0)
  /\ (nth i (strain_values fck) 0 / eps_c1 fck < k fck ->
      sigma > 0 /\ dmg < 1 /\ 1 - dmg <> 0).
Proof.
  intros Hf Hi Hs. cbv zeta.
  pose proof (f_cm_pos fck Hf) as Hm.
  pose proof (Rinv_0_lt_compat _ Hm) as Hmi.
  rewrite (nth_damage_raw fck i Hi).
  destruct (Rgt_dec _ _); [|contradiction].
  assert (Hiff : 1 - nth i (stress_values fck) 0 / f_cm fck < 1
                 <-> nth i (stress_values fck) 0 > 0).
  { unfold Rdiv. split; intros H; nra. }
  split; [lra|]. split; [exact Hiff|].
  intros Hk.
  assert (Hpos : nth i (stress_values fck) 0 > 0).
  { rewrite (nth_stress_values fck i Hi). cbv zeta.
    apply Rmult_lt_0_compat; [exact Hm|].
    apply curve_positive; [|exact Hk].
    pose proof (eps_c1_lower fck Hf) as He.
    apply Rmult_lt_reg_r with (eps_c1 fck); [lra|].
    unfold Rdiv. rewrite Rmult_assoc, Rinv_l by lra. lra. }
  split; [exact Hpos|]. split; [now apply Hiff|].
  assert (0 < nth i (stress_values fck) 0 / f_cm fck)
    by (apply Rdiv_lt_0_compat; assumption).
  lra.
Qed.

Lemma k_30_lower : 1.9 < k 30.
Proof.
  unfold k, E_cm_MPa, Py.abs. rewrite eps_c1_30.
  rewrite Rabs_pos_eq by lra. unfold f_cm.
  pose proof E_cm_GPa_30. lra.
Qed.

Lemma damage_below_one_under_k_witness :
  0 < 30 /\ (23 < length (strain_values 30))%nat
  /\ nth 23 (strain_values 30) 0 > eps_c1 30
  /\ nth 23 (strain_values 30) 0 / eps_c1 30 < k 30
  /\ nth 23 (stress_values 30) 0 > 0
  /\ nth 23 (damage_raw 30) 0 < 1.
Proof.
  assert (H0 : 0 < 30) by lra.
  assert (Hi : (23 < length (strain_values 30))%nat)
    by (rewrite length_strain_values_30; lia).
  assert (Hv : nth 23 (strain_values 30) 0 = 0.0023)
    by (rewrite nth_strain_values_30 by lia; rewrite INR_IZR_INZ; simpl; lra).
  assert (Hs : nth 23 (strain_values 30) 0 > eps_c1 30)
    by (rewrite Hv, eps_c1_30; lra).
  assert (Hk : nth 23 (strain_values 30) 0 / eps_c1 30 < k 30)
    by (rewrite Hv, eps_c1_30; pose proof k_30_lower; lra).
  destruct (damage_below_one_under_k 30 23 H0 Hi Hs) as (_ & _ & H).
  destruct (H Hk) as (Hp & Hd & _).
  repeat split; assumption.
Defined.

(** * Further properties of the script *)

(** ** Step 14 as a closure operator *)

Lemma accumulate_from_ge_input m v i :
  (i < length v)%nat -> nth i v 0 <= nth i (Np.accumulate_from m v) 0.
Proof.
  revert m i. induction v as [|x v IH]; intros m [|i] Hi; simpl in *; try lia.
  - apply Rmax_r.
  - apply IH. lia.
Qed.

Lemma accumulate_from_least m v b :
  length b = length v ->
  ((0 < length b)%nat -> m <= nth 0 b 0) ->
  (forall i, (S i < length b)%nat -> nth i b 0 <= nth (S i) b 0) ->
  (forall i, (i < length v)%nat -> nth i v 0 <= nth i b 0) ->
  forall i, (i < length v)%nat -> nth i (Np.accumulate_from m v) 0 <= nth i b 0.
Proof.
  revert m b. induction v as [|x v IH]; intros m [|y b] Hl Hm Hb Hv i Hi;
    simpl in *; try lia.
  assert (Hy : Rmax m x <= y).
  { apply Rmax_lub; [apply Hm; lia | apply (Hv O); lia]. }
  destruct i as [|i]; [exact Hy|].
  apply IH; try lia.
  - intros Hpos. apply Rle_trans with y; [exact Hy|]. apply (Hb O). lia.
  - intros j Hj. apply (Hb (S j)). lia.
  - intros j Hj. apply (Hv (S j)). lia.
Qed.

Lemma accumulate_from_const m v i :
  (forall j, (j <= i)%nat -> nth j v 0 <= m) -> (i < length v)%nat ->
  nth i (Np.accumulate_from m v) 0 = m.
Proof.
  revert m i. induction v as [|x v IH]; intros m i Hv Hi; simpl in *; try lia.
  assert (Hx : Rmax m x = m) by (apply Rmax_left; apply (Hv O); lia).
  destruct i as [|i]; [exact Hx|].
  rewrite Hx. apply IH; [|lia]. intros j Hj. apply (Hv (S j)). lia.
Qed.

Lemma ensure_ge_input arr i :
  (i < length arr)%nat ->
  nth i arr 0 <= nth i (ensure_non_negative_and_monotonic arr) 0.
Proof.
  unfold ensure_non_negative_and_monotonic, Np.maximum_accumulate, Np.maximum_scalar.
  destruct arr as [|x arr]; simpl; [lia|]. intros Hi.
  destruct i as [|i]; [apply Rmax_l|].
  apply Rle_trans with (nth i (map (fun x0 => Rmax x0 0) arr) 0).
  - rewrite (nth_map_lt _ _ _ 0) by lia. apply Rmax_l.
  - apply accumulate_from_ge_input. rewrite length_map. lia.
Qed.

Lemma ensure_least arr b :
  length b = length arr -> non_negative_non_decreasing b ->
  (forall i, (i < length arr)%nat -> nth i arr 0 <= nth i b 0) ->
  forall i, (i < length arr)%nat ->
            nth i (ensure_non_negative_and_monotonic arr) 0 <= nth i b 0.
Proof.
  intros Hl [Hb0 Hb1] Hv i Hi.
  unfold ensure_non_negative_and_monotonic, Np.maximum_accumulate, Np.maximum_scalar.
  destruct arr as [|x arr]; destruct b as [|y b]; simpl in *; try lia.
  assert (Hy : Rmax x 0 <= y).
  { apply Rmax_lub; [apply (Hv O); lia | apply (Hb0 O); lia]. }
  destruct i as [|i]; [exact Hy|].
  apply accumulate_from_least; rewrite ?length_map; try lia.
  - intros Hpos. apply Rle_trans with y; [exact Hy|]. apply (Hb1 O). lia.
  - intros j Hj. apply (Hb1 (S j)). lia.
  - intros j Hj. rewrite (nth_map_lt _ _ _ 0) by lia.
    apply Rmax_lub; [apply (Hv (S j)); lia | apply (Hb0 (S j)); lia].
Qed.

Lemma ensure_shape arr :
  non_negative_non_decreasing (ensure_non_negative_and_monotonic arr).
Proof.
  split; intros i Hi; rewrite length_ensure in Hi.
  - now apply ensure_non_negative.
  - now apply ensure_monotonic.
Qed.

Lemma ensure_zero_prefix arr i :
  (forall j, (j <= i)%nat -> nth j arr 0 <= 0) -> (i < length arr)%nat ->
  nth i (ensure_non_negative_and_monotonic arr) 0 = 0.
Proof.
  unfold ensure_non_negative_and_monotonic, Np.maximum_accumulate, Np.maximum_scalar.
  destruct arr as [|x arr]; simpl; [lia|]. intros Hv Hi.
  assert (Hx : Rmax x 0 = 0) by (apply Rmax_right; apply (Hv O); lia).
  destruct i as [|i]; [exact Hx|].
  rewrite Hx. apply accumulate_from_const; [|rewrite length_map; lia].
  intros j Hj. destruct (Nat.lt_ge_cases j (length arr)) as [Hlt|Hge].
  - rewrite (nth_map_lt _ _ _ 0) by lia.
    rewrite Rmax_right; [lra | apply (Hv (S j)); lia].
  - rewrite nth_overflow by (rewrite length_map; lia). lra.
Qed.


Lemma ensure_keeps arr :
  non_negative_non_decreasing arr ->
  ensure_non_negative_and_monotonic arr = arr.
Proof.
  intros Hs. apply (nth_ext _ _ 0 0); [apply length_ensure|].
  intros i Hi. rewrite length_ensure in Hi. apply Rle_antisym.
  - apply ensure_least; auto. intros j _. apply Rle_refl.
  - now apply ensure_ge_input.
Qed.

(** X2. An array that is already non-negative and non-decreasing comes back
    unchanged from [ensure_non_negative_and_monotonic]. *)
Theorem ensure_fixes_normalized (arr : list R) :
  non_negative_non_decreasing arr ->
  ensure_non_negative_and_monotonic arr = arr.
Proof. apply ensure_keeps. Qed.

Lemma ensure_fixes_normalized_witness :
  non_negative_non_decreasing [0; 1; 1; 2]
  /\ ensure_non_negative_and_monotonic [0; 1; 1; 2] = [0; 1; 1; 2].
Proof.
  assert (H : non_negative_non_decreasing [0; 1; 1; 2]).
  { split; intros i Hi; simpl in Hi;
      do 4 (destruct i as [|i]; [first [lia | simpl; lra]|]); lia. }
  split; [exact H | exact (ensure_fixes_normalized _ H)].
Defined.

(** X3. Normalizing twice is normalizing once. *)
Theorem ensure_idempotent (arr : list R) :
  ensure_non_negative_and_monotonic (ensure_non_negative_and_monotonic arr)
  = ensure_non_negative_and_monotonic arr.
Proof. apply ensure_keeps, ensure_shape. Qed.

(** ** The derived scalars *)

Lemma Rpower_8_lower : 1.9 < Rpower 8 0.31.
Proof. rational_power 31%nat 100%nat exponent_031. Qed.

Lemma Rpower_0_8_lower : 0.93 < Rpower 0.8 0.3.
Proof. rational_power 3%nat 10%nat exponent_03. Qed.

Lemma E_cm_GPa_lower fck : 0 < fck -> 20 < E_cm_GPa fck.
Proof.
  intros Hf. unfold E_cm_GPa, f_cm.
  assert (H : Rpower 0.8 0.3 <= Rpower ((fck + 8) / 10) 0.3)
    by (apply Rle_Rpower_l; lra).
  pose proof Rpower_0_8_lower. lra.
Qed.

Lemma eps_c1_capped_bounds fck :
  0 < fck -> 0.00133 < eps_c1_capped fck <= 0.0028.
Proof.
  intros Hf.
  assert (H : Rpower 8 0.31 <= Rpower (f_cm fck) 0.31)
    by (apply Rle_Rpower_l; unfold f_cm; lra).
  pose proof Rpower_8_lower.
  unfold eps_c1_capped, eps_c1_formula. destruct (Rgt_dec _ _); lra.
Qed.

Lemma eps_c1_on_grid fck :
  0 < fck ->
  exists n : Z, (13 <= n <= 28)%Z /\ eps_c1 fck = IZR n / 10000.
Proof.
  intros Hf. pose proof (eps_c1_capped_bounds fck Hf) as [Hlo Hhi].
  exists (Py.round_half_even (eps_c1_capped fck * 10 ^ 4)).
  replace (10 ^ 4) with 10000 by (simpl; lra).
  split; [split|].
  - apply round_half_even_lower. lra.
  - apply round_half_even_upper. lra.
  - unfold eps_c1, Py.round. replace (10 ^ 4) with 10000 by (simpl; lra).
    reflexivity.
Qed.

Lemma k_pos fck : 0 < fck -> 0 < k fck.
Proof.
  intros Hf. unfold k, E_cm_MPa, Py.abs.
  pose proof (E_cm_GPa_lower fck Hf). pose proof (eps_c1_lower fck Hf).
  pose proof (f_cm_pos fck Hf).
  rewrite Rabs_pos_eq by lra.
  apply Rdiv_lt_0_compat; [|assumption].
  apply Rmult_lt_0_compat; [|lra].
  apply Rmult_lt_0_compat; lra.
Qed.

(** X4. For every [f_ck > 0] the quantities the script divides by are
    positive: [f_cm > 8], [E_cm > 20] GPa (20000 MPa), and [eps_c1] is a
    multiple of 0.0001 between 0.0013 and 0.0028; [k] is positive too. *)
Theorem derived_scalars_positive (fck : R) :
  0 < fck ->
  8 < f_cm fck
  /\ 20 < E_cm_GPa fck
  /\ 20000 < E_cm_MPa fck
  /\ (exists n : Z, (13 <= n <= 28)%Z /\ eps_c1 fck = IZR n / 10000)
  /\ 0.0013 <= eps_c1 fck <= 0.0028
  /\ 0 < k fck.
Proof.
  intros Hf. pose proof (E_cm_GPa_lower fck Hf) as HE.
  destruct (eps_c1_on_grid fck Hf) as (n & [Hn1 Hn2] & Hn).
  split; [unfold f_cm; lra|]. split; [exact HE|].
  split; [unfold E_cm_MPa; lra|].
  split; [exists n; auto|].
  split; [|exact (k_pos fck Hf)].
  rewrite Hn. apply IZR_le in Hn1, Hn2. lra.
Qed.

Lemma derived_scalars_positive_witness :
  0 < 30 /\ 8 < f_cm 30 /\ 20 < E_cm_GPa 30 /\ 0 < k 30.
Proof.
  assert (H0 : 0 < 30) by lra.
  destruct (derived_scalars_positive 30 H0) as (H1 & H2 & _ & _ & _ & H6).
  repeat split; assumption.
Defined.

(** ** The peak position *)

Lemma start_index_on_peak fck :
  0 < fck ->
  nth (start_index fck) (strain_values fck) 0 = eps_c1 fck
  /\ INR (start_index fck) = eps_c1 fck * 10000
  /\ (13 <= start_index fck <= 28)%nat.
Proof.
  intros Hf. destruct (eps_c1_on_grid fck Hf) as (n & [Hn1 Hn2] & Hn).
  destruct (start_index_first fck) as (Hs1 & Hs2 & Hs3).
  pose proof (strain_values_nonempty fck) as Hlen.
  assert (HN : INR (Z.to_nat n) = IZR n)
    by (rewrite INR_IZR_INZ, Z2Nat.id; [reflexivity | lia]).
  assert (Hat : nth (Z.to_nat n) (strain_values fck) 0 = eps_c1 fck)
    by (rewrite nth_strain_values by lia; rewrite HN, Hn; lra).
  assert (Hge : (Z.to_nat n <= start_index fck)%nat).
  { apply INR_le. rewrite nth_strain_values in Hs2 by exact Hs1.
    rewrite HN. lra. }
  assert (Hle : (start_index fck <= Z.to_nat n)%nat).
  { destruct (Nat.le_gt_cases (start_index fck) (Z.to_nat n)) as [H|H];
      [exact H|].
    specialize (Hs3 _ H). lra. }
  assert (E : start_index fck = Z.to_nat n) by lia.
  rewrite E. split; [exact Hat|]. split; [rewrite HN, Hn; lra | lia].
Qed.

Lemma mask_after_start fck i :
  0 < fck -> (i < length (strain_values fck))%nat ->
  (nth i (strain_values fck) 0 > eps_c1 fck <-> (start_index fck < i)%nat).
Proof.
  intros Hf Hi. destruct (start_index_on_peak fck Hf) as (_ & Hs & _).
  rewrite nth_strain_values by exact Hi.
  split; intros H.
  - apply INR_lt. lra.
  - apply lt_INR in H. lra.
Qed.

(** X5. For every [f_ck > 0] the export starts at the peak position:
    [eps_c1] is [start_index] steps of 0.0001, [start_index] lies between
    13 and 28, and the mask [strain > eps_c1] of Steps 11 to 13 holds
    nowhere before [start_index] and everywhere after it. *)
Theorem export_starts_at_peak (fck : R) :
  0 < fck ->
  eps_c1 fck = INR (start_index fck) / 10000
  /\ (13 <= start_index fck <= 28)%nat
  /\ (forall i, (i < length (strain_values fck))%nat ->
        ((i < start_index fck)%nat -> nth i (mask fck) false = false)
        /\ ((start_index fck < i)%nat -> nth i (mask fck) false = true)).
Proof.
  intros Hf. destruct (start_index_on_peak fck Hf) as (_ & H2 & H3).
  split; [lra|]. split; [exact H3|].
  intros i Hi. rewrite nth_mask by exact Hi.
  pose proof (mask_after_start fck i Hf Hi) as [Hto Hfrom].
  split; intros Hlt; destruct (Rgt_dec _ _) as [Hg|Hn]; try reflexivity.
  - apply Hto in Hg. lia.
  - exfalso. apply Hn. now apply Hfrom.
Qed.

Lemma export_starts_at_peak_witness :
  0 < 30 /\ eps_c1 30 = INR (start_index 30) / 10000
  /\ (13 <= start_index 30 <= 28)%nat.
Proof.
  assert (H0 : 0 < 30) by lra.
  destruct (export_starts_at_peak 30 H0) as (H1 & H2 & _).
  split; [exact H0|]. split; [exact H1 | exact H2].
Defined.

(** ** Before and at the peak *)

Lemma raw_zero_up_to_start fck j :
  0 < fck -> (j <= start_index fck)%nat ->
  nth j (inelastic_strain_raw fck) 0 = 0
  /\ nth j (damage_raw fck) 0 = 0
  /\ nth j (plastic_strain_raw fck) 0 = 0.
Proof.
  intros Hf Hj. destruct (start_index_first fck) as (Hs & _).
  assert (Hlt : (j < length (strain_values fck))%nat) by lia.
  rewrite nth_inelastic_strain_raw, nth_damage_raw, nth_plastic_strain_raw
    by exact Hlt.
  destruct (Rgt_dec _ _) as [Hg|]; [|now repeat split].
  apply (mask_after_start fck j Hf Hlt) in Hg. lia.
Qed.

(** X6. For every [f_ck > 0] the three normalized sequences are 0 at every
    position before [start_index], that is wherever the strain is below
    [eps_c1]. *)
Theorem normalized_zero_before_peak (fck : R) (i : nat) :
  0 < fck -> (i < start_index fck)%nat ->
  nth i (inelastic_strain_values fck) 0 = 0
  /\ nth i (plastic_strain_values fck) 0 = 0
  /\ nth i (damage_values fck) 0 = 0.
Proof.
  intros Hf Hi. destruct (start_index_first fck) as (Hs & _).
  unfold inelastic_strain_values, plastic_strain_values, damage_values.
  repeat split; apply ensure_zero_prefix;
    rewrite ?length_inelastic_strain_raw, ?length_plastic_strain_raw,
            ?length_damage_raw; try lia;
    intros j Hj;
    destruct (raw_zero_up_to_start fck j Hf) as (H1 & H2 & H3); try lia;
    rewrite ?H1, ?H2, ?H3; apply Rle_refl.
Qed.

Lemma normalized_zero_before_peak_witness :
  0 < 30 /\ (5 < start_index 30)%nat
  /\ nth 5 (inelastic_strain_values 30) 0 = 0
  /\ nth 5 (plastic_strain_values 30) 0 = 0
  /\ nth 5 (damage_values 30) 0 = 0.
Proof.
  assert (H0 : 0 < 30) by lra.
  assert (H5 : (5 < start_index 30)%nat)
    by (pose proof (start_index_on_peak 30 H0) as (_ & _ & H); lia).
  split; [exact H0|]. split; [exact H5|].
  exact (normalized_zero_before_peak 30 5 H0 H5).
Defined.

Lemma length_inelastic_strain_values fck :
  length (inelastic_strain_values fck) = length (strain_values fck).
Proof.
  unfold inelastic_strain_values.
  now rewrite length_ensure, length_inelastic_strain_raw.
Qed.


Lemma length_plastic_strain_values fck :
  length (plastic_strain_values fck) = length (strain_values fck).
Proof.
  unfold plastic_strain_values.
  now rewrite length_ensure, length_plastic_strain_raw.
Qed.



(** ** The curve below [k] *)

Lemma curve_denominator_pos (kk eta : R) :
  0 <= eta -> 1 < kk -> eta < kk -> 0 < 1 + (kk - 2) * eta.
Proof.
  intros H0 H1 Hk.
  destruct (Rle_lt_dec 2 kk) as [H2|H2]; [nra|].
  destruct (Rle_lt_dec eta 1) as [He|He]; [nra|].
  assert ((2 - kk) * eta < (2 - kk) * kk) by nra.
  assert (0 <= (kk - 1) ^ 2) by apply pow2_ge_0.
  nra.
Qed.

Lemma curve_bounds (kk eta : R) :
  0 <= eta -> 1 < kk -> eta < kk ->
  0 <= (kk * eta - eta ^ 2) / (1 + (kk - 2) * eta) <= 1.
Proof.
  intros H0 H1 Hk.
  pose proof (curve_denominator_pos kk eta H0 H1 Hk) as Hd.
  pose proof (Rinv_0_lt_compat _ Hd) as Hi.
  assert (Hn : 0 <= kk * eta - eta ^ 2) by nra.
  assert (Hs : 0 <= (eta - 1) ^ 2) by apply pow2_ge_0.
  split.
  - unfold Rdiv. apply Rmult_le_pos; lra.
  - apply Rmult_le_reg_r with (1 + (kk - 2) * eta); [exact Hd|].
    unfold Rdiv. rewrite Rmult_assoc, Rinv_l by lra. nra.
Qed.

Lemma eta_nonneg fck i :
  0 < fck -> (i < length (strain_values fck))%nat ->
  0 <= nth i (strain_values fck) 0 / eps_c1 fck.
Proof.
  intros Hf Hi. pose proof (eps_c1_lower fck Hf).
  rewrite nth_strain_values by exact Hi.
  pose proof (pos_INR i).
  apply Rmult_le_pos; [lra|]. left. apply Rinv_0_lt_compat. lra.
Qed.

Lemma stress_bounds_below_k fck i :
  0 < fck -> (i < length (strain_values fck))%nat -> 1 < k fck ->
  nth i (strain_values fck) 0 / eps_c1 fck < k fck ->
  0 <= nth i (stress_values fck) 0 <= f_cm fck.
Proof.
  intros Hf Hi H1 Hk. pose proof (f_cm_pos fck Hf) as Hm.
  rewrite nth_stress_values by exact Hi. cbv zeta.
  pose proof (curve_bounds _ _ (eta_nonneg fck i Hf Hi) H1 Hk) as [Hlo Hhi].
  split; [apply Rmult_le_pos; lra | nra].
Qed.

Lemma damage_raw_bounds_below_k fck i :
  0 < fck -> (i < length (strain_values fck))%nat -> 1 < k fck ->
  nth i (strain_values fck) 0 / eps_c1 fck < k fck ->
  0 <= nth i (damage_raw fck) 0 < 1.
Proof.
  intros Hf Hi H1 Hk. pose proof (f_cm_pos fck Hf) as Hm.
  pose proof (stress_bounds_below_k fck i Hf Hi H1 Hk) as [Hlo Hhi].
  rewrite nth_damage_raw by exact Hi.
  destruct (Rgt_dec _ _) as [Hg|]; [|lra].
  assert (Hpos : 0 < nth i (stress_values fck) 0).
  { rewrite nth_stress_values by exact Hi. cbv zeta.
    apply Rmult_lt_0_compat; [exact Hm|].
    apply curve_positive; [|exact Hk].
    pose proof (eps_c1_lower fck Hf) as He.
    apply Rmult_lt_reg_r with (eps_c1 fck); [lra|].
    unfold Rdiv. rewrite Rmult_assoc, Rinv_l by lra. lra. }
  pose proof (Rinv_0_lt_compat _ Hm) as Hmi.
  assert (0 < nth i (stress_values fck) 0 / f_cm fck)
    by (apply Rdiv_lt_0_compat; assumption).
  assert (nth i (stress_values fck) 0 / f_cm fck <= 1).
  { apply Rmult_le_reg_r with (f_cm fck); [exact Hm|].
    unfold Rdiv. rewrite Rmult_assoc, Rinv_l by lra. lra. }
  lra.
Qed.

Lemma curve_below_one (kk eta : R) :
  0 <= eta -> 1 < kk -> eta < kk -> eta <> 1 ->
  (kk * eta - eta ^ 2) / (1 + (kk - 2) * eta) < 1.
Proof.
  intros H0 H1 Hk Hne.
  pose proof (curve_denominator_pos kk eta H0 H1 Hk) as Hd.
  assert (Hs : 0 < (eta - 1) ^ 2).
  { replace ((eta - 1) ^ 2) with ((eta - 1) * (eta - 1)) by ring.
    destruct (Rlt_le_dec eta 1) as [Hlt|Hge].
    - replace ((eta - 1) * (eta - 1)) with ((1 - eta) * (1 - eta)) by ring.
      apply Rmult_lt_0_compat; lra.
    - apply Rmult_lt_0_compat; lra. }
  apply Rmult_lt_reg_r with (1 + (kk - 2) * eta); [exact Hd|].
  unfold Rdiv. rewrite Rmult_assoc, Rinv_l by lra.
  replace ((eta - 1) ^ 2) with (eta ^ 2 - 2 * eta + 1) in Hs by ring.
  lra.
Qed.

Lemma eta_off_peak fck i :
  0 < fck -> (i < length (strain_values fck))%nat -> i <> start_index fck ->
  nth i (strain_values fck) 0 / eps_c1 fck <> 1.
Proof.
  intros Hf Hi Hne E. pose proof (eps_c1_lower fck Hf) as He.
  destruct (start_index_on_peak fck Hf) as (_ & Hs & _).
  rewrite nth_strain_values in E by exact Hi.
  assert (E' : INR i * 0.0001 = eps_c1 fck).
  { apply Rmult_eq_reg_r with (/ eps_c1 fck);
      [|apply Rinv_neq_0_compat; lra].
    rewrite Rinv_r by lra. exact E. }
  apply Hne. apply INR_eq. lra.
Qed.

Lemma stress_below_peak_off_start fck i :
  0 < fck -> (i < length (strain_values fck))%nat -> 1 < k fck ->
  nth i (strain_values fck) 0 / eps_c1 fck < k fck ->
  i <> start_index fck ->
  nth i (stress_values fck) 0 < f_cm fck.
Proof.
  intros Hf Hi H1 Hk Hne. pose proof (f_cm_pos fck Hf) as Hm.
  rewrite nth_stress_values by exact Hi. cbv zeta.
  pose proof (curve_below_one _ _ (eta_nonneg fck i Hf Hi) H1 Hk
                (eta_off_peak fck i Hf Hi Hne)) as Hlt.
  rewrite <- (Rmult_1_r (f_cm fck)) at 2.
  now apply Rmult_lt_compat_l.
Qed.

(** X8. For every [f_ck > 0] with [k > 1], at every position other than
    [start_index] whose [eta = strain / eps_c1] is below [k], the stress is
    at least 0 and below the peak [f_cm], and the raw damage lies in
    [0, 1). *)
Theorem stress_and_damage_in_range (fck : R) (i : nat) :
  0 < fck -> (i < length (strain_values fck))%nat -> 1 < k fck ->
  nth i (strain_values fck) 0 / eps_c1 fck < k fck ->
  i <> start_index fck ->
  0 <= nth i (stress_values fck) 0 < f_cm fck
  /\ 0 <= nth i (damage_raw fck) 0 < 1.
Proof.
  intros Hf Hi H1 Hk Hne.
  pose proof (stress_bounds_below_k fck i Hf Hi H1 Hk) as [Hs _].
  split; [split; [exact Hs | now apply stress_below_peak_off_start]|].
  now apply damage_raw_bounds_below_k.
Qed.

Lemma eta_30_below_k i :
  (i < length (strain_values 30))%nat ->
  nth i (strain_values 30) 0 / eps_c1 30 < k 30.
Proof.
  intros Hi. rewrite nth_strain_values by exact Hi.
  rewrite length_strain_values_30 in Hi. rewrite eps_c1_30.
  assert (H : INR i <= INR 35) by (apply le_INR; lia).
  rewrite (INR_IZR_INZ 35) in H. simpl in H.
  pose proof k_30_lower. lra.
Qed.

Lemma stress_and_damage_in_range_witness :
  0 < 30 /\ (35 < length (strain_values 30))%nat /\ 1 < k 30
  /\ nth 35 (strain_values 30) 0 / eps_c1 30 < k 30
  /\ 35%nat <> start_index 30
  /\ 0 <= nth 35 (stress_values 30) 0 < f_cm 30
  /\ 0 <= nth 35 (damage_raw 30) 0 < 1.
Proof.
  assert (H0 : 0 < 30) by lra.
  assert (Hi : (35 < length (strain_values 30))%nat)
    by (rewrite length_strain_values_30; lia).
  assert (H1 : 1 < k 30) by (pose proof k_30_lower; lra).
  pose proof (eta_30_below_k 35 Hi) as Hk.
  assert (Hne : 35%nat <> start_index 30)
    by (pose proof (start_index_on_peak 30 H0) as (_ & _ & H); lia).
  split; [exact H0|]. split; [exact Hi|]. split; [exact H1|].
  split; [exact Hk|]. split; [exact Hne|].
  exact (stress_and_damage_in_range 30 35 H0 Hi H1 Hk Hne).
Defined.

Lemma accumulate_from_lt m v c i :
  m < c -> (forall j, (j < length v)%nat -> nth j v 0 < c) ->
  (i < length v)%nat -> nth i (Np.accumulate_from m v) 0 < c.
Proof.
  revert m i. induction v as [|x v IH]; intros m i Hm Hv Hi; simpl in *;
    try lia.
  assert (Hx : Rmax m x < c) by (apply Rmax_lub_lt; [exact Hm | apply (Hv O); lia]).
  destruct i as [|i]; [exact Hx|].
  apply IH; [exact Hx | | lia]. intros j Hj. apply (Hv (S j)). lia.
Qed.

Lemma ensure_lt arr c i :
  0 < c -> (forall j, (j < length arr)%nat -> nth j arr 0 < c) ->
  (i < length arr)%nat ->
  nth i (ensure_non_negative_and_monotonic arr) 0 < c.
Proof.
  unfold ensure_non_negative_and_monotonic, Np.maximum_accumulate, Np.maximum_scalar.
  destruct arr as [|x arr]; simpl; [lia|]. intros Hc Hv Hi.
  assert (Hx : Rmax x 0 < c) by (apply Rmax_lub_lt; [apply (Hv O); lia | exact Hc]).
  destruct i as [|i]; [exact Hx|].
  apply accumulate_from_lt; [exact Hx | | rewrite length_map; lia].
  intros j Hj. rewrite length_map in Hj.
  rewrite (nth_map_lt _ _ _ 0) by exact Hj.
  apply Rmax_lub_lt; [apply (Hv (S j)); lia | exact Hc].
Qed.

Lemma ensure_pointwise_le a b :
  length a = length b ->
  (forall i, (i < length a)%nat -> nth i a 0 <= nth i b 0) ->
  forall i, (i < length a)%nat ->
    nth i (ensure_non_negative_and_monotonic a) 0
    <= nth i (ensure_non_negative_and_monotonic b) 0.
Proof.
  intros Hl Hab. apply ensure_least.
  - rewrite length_ensure. now symmetry.
  - apply ensure_shape.
  - intros i Hi. apply Rle_trans with (nth i b 0); [now apply Hab|].
    apply ensure_ge_input. lia.
Qed.

Lemma plastic_raw_le_inelastic_raw fck i :
  0 < fck -> (i < length (strain_values fck))%nat -> 1 < k fck ->
  nth i (strain_values fck) 0 / eps_c1 fck < k fck ->
  nth i (plastic_strain_raw fck) 0 <= nth i (inelastic_strain_raw fck) 0.
Proof.
  intros Hf Hi H1 Hk.
  pose proof (stress_bounds_below_k fck i Hf Hi H1 Hk) as [Hs _].
  pose proof (damage_raw_bounds_below_k fck i Hf Hi H1 Hk) as [Hd0 Hd1].
  pose proof (E_cm_GPa_lower fck Hf) as HE.
  rewrite (nth_plastic_strain_raw fck i Hi).
  destruct (Rgt_dec _ _) as [Hg|Hn].
  - assert (0 <= nth i (damage_raw fck) 0 / (1 - nth i (damage_raw fck) 0)).
    { apply Rmult_le_pos; [exact Hd0|]. left. apply Rinv_0_lt_compat. lra. }
    assert (0 <= nth i (stress_values fck) 0 / E_cm_MPa fck).
    { apply Rmult_le_pos; [exact Hs|]. left. apply Rinv_0_lt_compat.
      unfold E_cm_MPa. lra. }
    assert (0 <= nth i (damage_raw fck) 0 / (1 - nth i (damage_raw fck) 0)
                 * (nth i (stress_values fck) 0 / E_cm_MPa fck))
      by (apply Rmult_le_pos; assumption).
    lra.
  - rewrite (nth_inelastic_strain_raw fck i Hi).
    destruct (Rgt_dec _ _); [contradiction | apply Rle_refl].
Qed.

(** X9. For every [f_ck > 0] with [k > 1] whose whole grid stays below [k]
    (every [eta = strain / eps_c1] is below [k]): at every position the
    normalized damage lies in [0, 1), and at every position other than
    [start_index] the normalized plastic strain is at most the normalized
    inelastic strain. *)
Theorem normalized_curves_in_range (fck : R) :
  0 < fck -> 1 < k fck ->
  (forall i, (i < length (strain_values fck))%nat ->
             nth i (strain_values fck) 0 / eps_c1 fck < k fck) ->
  forall i, (i < length (strain_values fck))%nat ->
    0 <= nth i (damage_values fck) 0 < 1
    /\ (i <> start_index fck ->
        nth i (plastic_strain_values fck) 0
        <= nth i (inelastic_strain_values fck) 0).
Proof.
  intros Hf H1 Hall i Hi.
  unfold damage_values, plastic_strain_values, inelastic_strain_values.
  split; [split|].
  - apply ensure_non_negative. now rewrite length_damage_raw.
  - apply ensure_lt; [lra | | now rewrite length_damage_raw].
    intros j Hj. rewrite length_damage_raw in Hj.
    apply (damage_raw_bounds_below_k fck j Hf Hj H1 (Hall j Hj)).
  - intros _. apply ensure_pointwise_le;
      rewrite ?length_plastic_strain_raw, ?length_inelastic_strain_raw; auto.
    intros j Hj.
    apply (plastic_raw_le_inelastic_raw fck j Hf Hj H1 (Hall j Hj)).
Qed.

Lemma normalized_curves_in_range_witness :
  0 < 30 /\ 1 < k 30
  /\ (forall i, (i < length (strain_values 30))%nat ->
                nth i (strain_values 30) 0 / eps_c1 30 < k 30)
  /\ 0 <= nth 35 (damage_values 30) 0 < 1
  /\ nth 35 (plastic_strain_values 30) 0
     <= nth 35 (inelastic_strain_values 30) 0.
Proof.
  assert (H0 : 0 < 30) by lra.
  assert (H1 : 1 < k 30) by (pose proof k_30_lower; lra).
  assert (Hi : (35 < length (strain_values 30))%nat)
    by (rewrite length_strain_values_30; lia).
  assert (Hne : 35%nat <> start_index 30)
    by (pose proof (start_index_on_peak 30 H0) as (_ & _ & H); lia).
  split; [exact H0|]. split; [exact H1|]. split; [exact eta_30_below_k|].
  destruct (normalized_curves_in_range 30 H0 H1 eta_30_below_k 35 Hi)
    as (Hd & Hp).
  split; [exact Hd | exact (Hp Hne)].
Defined.

(** ** The size of the grid *)

Lemma eps_cu1_upper fck : fck <= 130 -> eps_cu1 fck <= 0.0035.
Proof.
  intros Hf. unfold eps_cu1. destruct (Rlt_dec fck 50) as [|Hn]; [lra|].
  unfold f_cm. set (x := (98 - (fck + 8)) / 100).
  assert (Hx : -0.4 <= x <= 0.4) by (unfold x; lra).
  assert (H2 : 0 <= x ^ 2 <= 0.16) by nra.
  assert (H4 : x ^ 4 <= 0.0256).
  { replace (x ^ 4) with (x ^ 2 * x ^ 2) by ring. nra. }
  lra.
Qed.

Lemma eps_cu1_low fck : fck < 50 -> eps_cu1 fck = 0.0035.
Proof. intros Hf. unfold eps_cu1. destruct (Rlt_dec fck 50); [reflexivity | lra]. Qed.

(** X10. For every [f_ck] with [0 < f_ck <= 130] the strain grid has between
    29 and 36 points; for [f_ck < 50] it has exactly 36 and its last value
    is [eps_cu1 = 0.0035] itself. *)
Theorem grid_size (fck : R) :
  0 < fck -> fck <= 130 ->
  (29 <= length (strain_values fck) <= 36)%nat
  /\ (fck < 50 ->
      length (strain_values fck) = 36%nat
      /\ last (strain_values fck) 0 = eps_cu1 fck).
Proof.
  intros _ Hf. pose proof (strain_values_nonempty fck) as Hlo.
  pose proof (grid_points_bound fck) as [Hg1 Hg2].
  pose proof (eps_cu1_upper fck Hf) as Hu.
  split.
  - split; [exact Hlo|]. rewrite length_strain_values.
    assert (Hlt : IZR (grid_points fck) < IZR 37) by lra.
    apply lt_IZR in Hlt. lia.
  - intros H50. pose proof (eps_cu1_low fck H50) as He.
    assert (Hgp : grid_points fck = 36%Z)
      by (unfold grid_points; rewrite He; apply Zceil_eq; lra).
    assert (Hlen : length (strain_values fck) = 36%nat)
      by (rewrite length_strain_values, Hgp; reflexivity).
    split; [exact Hlen|].
    rewrite last_as_nth, Hlen, nth_strain_values by (rewrite Hlen; lia).
    rewrite He. simpl Nat.sub. rewrite INR_IZR_INZ. simpl. lra.
Qed.

Lemma grid_size_witness :
  0 < 20 /\ 20 <= 130 /\ 20 < 50
  /\ length (strain_values 20) = 36%nat
  /\ last (strain_values 20) 0 = eps_cu1 20.
Proof.
  assert (H0 : 0 < 20) by lra. assert (H1 : 20 <= 130) by lra.
  assert (H2 : 20 < 50) by lra.
  destruct (grid_size 20 H0 H1) as (_ & H).
  repeat split; try assumption; apply (H H2).
Defined.

(** ** Where the cap takes over *)

Lemma round_half_even_below (x : R) (n : Z) :
  x < IZR n + 1 / 2 -> (Py.round_half_even x <= n)%Z.
Proof.
  intros Hx. unfold Py.round_half_even.
  pose proof (Zfloor_bound x) as [Hf1 Hf2].
  assert (Hle : (Zfloor x <= n)%Z).
  { assert (H : IZR (Zfloor x) < IZR (n + 1)) by (rewrite plus_IZR; lra).
    apply lt_IZR in H. lia. }
  destruct (Z.eq_dec (Zfloor x) n) as [E|NE].
  - rewrite E in *. destruct (Rlt_dec (x - IZR n) (1 / 2)); [lia | lra].
  - destruct (Rlt_dec _ _); [lia|].
    destruct (Rlt_dec _ _); [lia|]. destruct (Z.even _); lia.
Qed.

Lemma Rpower_83_lower : 3.93 < Rpower 83 0.31.
Proof. rational_power 31%nat 100%nat exponent_031. Qed.

Lemma Rpower_82_upper : Rpower 82 0.31 < 3.921.
Proof. rational_power 31%nat 100%nat exponent_031. Qed.

(** X11. The rounded peak strain reaches the cap between 74 and 75 MPa:
    [eps_c1 = 0.0028] for every [f_ck >= 75], and [eps_c1 <= 0.0027] for
    every [f_ck] with [0 < f_ck <= 74]. *)
Theorem eps_c1_saturation (fck : R) :
  0 < fck ->
  (75 <= fck -> eps_c1 fck = 0.0028)
  /\ (fck <= 74 -> eps_c1 fck <= 0.0027).
Proof.
  intros Hf. split; intros H.
  - assert (Hp : Rpower 83 0.31 <= Rpower (f_cm fck) 0.31)
      by (apply Rle_Rpower_l; unfold f_cm; lra).
    pose proof Rpower_83_lower.
    assert (Hc : 0.002751 <= eps_c1_capped fck <= 0.0028)
      by (unfold eps_c1_capped, eps_c1_formula; destruct (Rgt_dec _ _); lra).
    unfold eps_c1. rewrite (round4_near _ 28); lra.
  - assert (Hp : Rpower (f_cm fck) 0.31 <= Rpower 82 0.31)
      by (apply Rle_Rpower_l; unfold f_cm; lra).
    pose proof Rpower_82_upper.
    assert (Hc : eps_c1_capped fck < 0.00275)
      by (unfold eps_c1_capped, eps_c1_formula; destruct (Rgt_dec _ _); lra).
    unfold eps_c1, Py.round. replace (10 ^ 4) with 10000 by (simpl; lra).
    assert (Hr : (Py.round_half_even (eps_c1_capped fck * 10000) <= 27)%Z)
      by (apply round_half_even_below; lra).
    apply IZR_le in Hr. lra.
Qed.

Lemma eps_c1_saturation_witness :
  0 < 80 /\ 75 <= 80 /\ eps_c1 80 = 0.0028
  /\ 0 < 60 /\ 60 <= 74 /\ eps_c1 60 <= 0.0027.
Proof.
  assert (H80 : 0 < 80) by lra. assert (L80 : 75 <= 80) by lra.
  assert (H60 : 0 < 60) by lra. assert (L60 : 60 <= 74) by lra.
  destruct (eps_c1_saturation 80 H80) as (Hhi & _).
  destruct (eps_c1_saturation 60 H60) as (_ & Hlo).
  repeat split; try assumption; [exact (Hhi L80) | exact (Hlo L60)].
Defined.

(** ** The high-strength branch of [eps_cu1] *)

(** X12. On the high-strength branch [eps_cu1] depends only on the distance
    of [f_ck] from 90: for [0 <= d <= 40],
    [eps_cu1 (90 + d) = eps_cu1 (90 - d) = (2.8 + 27 * (d / 100)^4) * 1e-3],
    which lies between 0.0028 (at [f_ck = 90]) and 0.0034912; so beyond 90
    the ultimate strain grows again. *)
Theorem eps_cu1_mirror_at_90 (d : R) :
  0 <= d <= 40 ->
  eps_cu1 (90 + d) = eps_cu1 (90 - d)
  /\ eps_cu1 (90 + d) = (2.8 + 27 * (d / 100) ^ 4) * 1e-3
  /\ 0.0028 <= eps_cu1 (90 + d) <= 0.0034912.
Proof.
  intros [Hd0 Hd1]. replace 1e-3 with 0.001 by lra.
  assert (Hup : eps_cu1 (90 + d) = (2.8 + 27 * (d / 100) ^ 4) * 0.001).
  { unfold eps_cu1, f_cm. destruct (Rlt_dec (90 + d) 50); [lra|].
    replace ((98 - (90 + d + 8)) / 100) with (- (d / 100)) by lra.
    replace ((- (d / 100)) ^ 4) with ((d / 100) ^ 4) by ring. reflexivity. }
  assert (Hdn : eps_cu1 (90 - d) = (2.8 + 27 * (d / 100) ^ 4) * 0.001).
  { unfold eps_cu1, f_cm. destruct (Rlt_dec (90 - d) 50); [lra|].
    replace ((98 - (90 - d + 8)) / 100) with (d / 100) by lra. reflexivity. }
  split; [now rewrite Hup, Hdn|]. split; [exact Hup|].
  rewrite Hup. set (x := d / 100).
  assert (Hx : 0 <= x <= 0.4) by (unfold x; lra).
  assert (H2 : 0 <= x ^ 2 <= 0.16) by nra.
  assert (H4 : 0 <= x ^ 4 <= 0.0256).
  { replace (x ^ 4) with (x ^ 2 * x ^ 2) by ring. nra. }
  lra.
Qed.

Lemma eps_cu1_mirror_at_90_witness :
  0 <= 10 <= 40 /\ eps_cu1 (90 + 10) = eps_cu1 (90 - 10)
  /\ 0.0028 <= eps_cu1 (90 + 10) <= 0.0034912.
Proof.
  assert (H : 0 <= 10 <= 40) by lra.
  destruct (eps_cu1_mirror_at_90 10 H) as (H1 & _ & H3).
  split; [exact H|]. split; [exact H1 | exact H3].
Defined.

(** ** The exported tables *)


Lemma length_export_data fck :
  length (export_data fck)
  = (length (strain_values fck) - start_index fck)%nat.
Proof.
  unfold export_data.
  rewrite length_combine, !length_slice_from, length_stress_values,
          length_inelastic_strain_values.
  apply Nat.min_id.
Qed.



(** ** Softening past the peak *)

Lemma curve_decreasing (kk e1 e2 : R) :
  1 < kk -> 1 <= e1 -> e1 < e2 -> e2 < kk ->
  (kk * e2 - e2 ^ 2) / (1 + (kk - 2) * e2)
  < (kk * e1 - e1 ^ 2) / (1 + (kk - 2) * e1).
Proof.
  intros Hk H1 H12 H2.
  assert (Hd1 : 0 < 1 + (kk - 2) * e1)
    by (apply curve_denominator_pos; lra).
  assert (Hd2 : 0 < 1 + (kk - 2) * e2)
    by (apply curve_denominator_pos; lra).
  assert (Hg : 0 < (kk - 2) * (e1 - 1) * (e2 - 1)
                   + (kk - 1) * ((e1 - 1) + (e2 - 1))).
  { destruct (Rle_lt_dec 2 kk) as [Hk2|Hk2].
    - assert (0 <= (kk - 2) * (e1 - 1) * (e2 - 1))
        by (apply Rmult_le_pos; [apply Rmult_le_pos|]; lra).
      assert (0 < (kk - 1) * ((e1 - 1) + (e2 - 1)))
        by (apply Rmult_lt_0_compat; lra).
      lra.
    - assert (Ha : (2 - kk) * (e1 - 1) * (e2 - 1)
                   <= (2 - kk) * (e1 - 1) * (kk - 1))
        by (apply Rmult_le_compat_l; [apply Rmult_le_pos|]; lra).
      assert (Hb : (2 - kk) * (e1 - 1) * (kk - 1) <= (e1 - 1) * (kk - 1)).
      { apply Rmult_le_compat_r; [lra|].
        rewrite <- (Rmult_1_l (e1 - 1)) at 2.
        apply Rmult_le_compat_r; lra. }
      assert (Hc : 0 < (kk - 1) * (e2 - 1))
        by (apply Rmult_lt_0_compat; lra).
      lra. }
  assert (Hdiff :
    (kk * e1 - e1 ^ 2) / (1 + (kk - 2) * e1)
    - (kk * e2 - e2 ^ 2) / (1 + (kk - 2) * e2)
    = (e2 - e1)
      * ((kk - 2) * (e1 - 1) * (e2 - 1) + (kk - 1) * ((e1 - 1) + (e2 - 1)))
      * / ((1 + (kk - 2) * e1) * (1 + (kk - 2) * e2)))
    by (field; lra).
  assert (Hpos : 0 < (e2 - e1)
      * ((kk - 2) * (e1 - 1) * (e2 - 1) + (kk - 1) * ((e1 - 1) + (e2 - 1)))
      * / ((1 + (kk - 2) * e1) * (1 + (kk - 2) * e2))).
  { apply Rmult_lt_0_compat; [apply Rmult_lt_0_compat; lra|].
    apply Rinv_0_lt_compat. apply Rmult_lt_0_compat; lra. }
  lra.
Qed.

Lemma stress_decreasing_past_peak fck i :
  0 < fck -> 1 < k fck -> (S i < length (strain_values fck))%nat ->
  nth (S i) (strain_values fck) 0 / eps_c1 fck < k fck ->
  (start_index fck <= i)%nat ->
  nth (S i) (stress_values fck) 0 < nth i (stress_values fck) 0.
Proof.
  intros Hf H1 Hi Hk Hs. pose proof (f_cm_pos fck Hf) as Hm.
  pose proof (eps_c1_lower fck Hf) as He.
  destruct (start_index_on_peak fck Hf) as (_ & Hat & _).
  rewrite !nth_stress_values by lia. cbv zeta.
  rewrite (nth_strain_values fck (S i)) in * by lia.
  rewrite (nth_strain_values fck i) by lia.
  assert (Hinv : 0 < / eps_c1 fck) by (apply Rinv_0_lt_compat; lra).
  assert (Hi1 : INR (start_index fck) <= INR i) by (apply le_INR; lia).
  apply Rmult_lt_compat_l; [exact Hm|].
  apply curve_decreasing; try assumption.
  - apply Rmult_le_reg_r with (eps_c1 fck); [lra|].
    unfold Rdiv. rewrite Rmult_assoc, Rinv_l by lra. lra.
  - rewrite S_INR. unfold Rdiv. apply Rmult_lt_compat_r; lra.
Qed.

(** X15. For every [f_ck > 0] with [k > 1], the stress falls strictly from
    each position to the next from [start_index] on, as long as the next
    position's [eta = strain / eps_c1] is below [k]. *)
Theorem post_peak_softening (fck : R) (i : nat) :
  0 < fck -> 1 < k fck -> (S i < length (strain_values fck))%nat ->
  nth (S i) (strain_values fck) 0 / eps_c1 fck < k fck ->
  (start_index fck <= i)%nat ->
  nth (S i) (stress_values fck) 0 < nth i (stress_values fck) 0.
Proof. apply stress_decreasing_past_peak. Qed.

Lemma post_peak_softening_witness :
  0 < 30 /\ 1 < k 30 /\ (S 30 < length (strain_values 30))%nat
  /\ nth (S 30) (strain_values 30) 0 / eps_c1 30 < k 30
  /\ (start_index 30 <= 30)%nat
  /\ nth (S 30) (stress_values 30) 0 < nth 30 (stress_values 30) 0.
Proof.
  assert (H0 : 0 < 30) by lra.
  assert (H1 : 1 < k 30) by (pose proof k_30_lower; lra).
  assert (Hi : (S 30 < length (strain_values 30))%nat)
    by (rewrite length_strain_values_30; lia).
  assert (Hk : nth (S 30) (strain_values 30) 0 / eps_c1 30 < k 30)
    by (apply eta_30_below_k; lia).
  assert (Hs : (start_index 30 <= 30)%nat)
    by (pose proof (start_index_on_peak 30 H0) as (_ & _ & H); lia).
  repeat split; try assumption.
  exact (post_peak_softening 30 30 H0 H1 Hi Hk Hs).
Defined.

Lemma damage_raw_shape fck :
  0 < fck -> 1 < k fck ->
  (forall i, (i < length (strain_values fck))%nat ->
             nth i (strain_values fck) 0 / eps_c1 fck < k fck) ->
  non_negative_non_decreasing (damage_raw fck).
Proof.
  intros Hf H1 Hall. pose proof (f_cm_pos fck Hf) as Hm.
  pose proof (Rinv_0_lt_compat _ Hm) as Hmi.
  split; intros i Hi; rewrite length_damage_raw in Hi.
  - apply (damage_raw_bounds_below_k fck i Hf Hi H1 (Hall i Hi)).
  - assert (Hi0 : (i < length (strain_values fck))%nat) by lia.
    pose proof (damage_raw_bounds_below_k fck (S i) Hf Hi H1 (Hall _ Hi))
      as [Hn _].
    rewrite (nth_damage_raw fck i Hi0).
    destruct (Rgt_dec _ _) as [Hg|]; [|exact Hn].
    assert (Hlt : (start_index fck < i)%nat)
      by (apply (mask_after_start fck i Hf Hi0); exact Hg).
    pose proof (stress_decreasing_past_peak fck i Hf H1 Hi (Hall _ Hi))
      as Hdec.
    rewrite (nth_damage_raw fck (S i) Hi).
    destruct (Rgt_dec _ _) as [|Hn'].
    + unfold Rdiv.
      assert (nth (S i) (stress_values fck) 0 * / f_cm fck
              <= nth i (stress_values fck) 0 * / f_cm fck)
        by (apply Rmult_le_compat_r; [lra | apply Rlt_le, Hdec; lia]).
      lra.
    + exfalso. apply Hn'. apply (mask_after_start fck (S i) Hf Hi). lia.
Qed.

(** X16. For every [f_ck > 0] with [k > 1] whose whole grid stays below
    [k], the normalization of Step 14 leaves the damage as computed at
    every position other than [start_index]: there [damage_values] is the
    raw [1 - stress / f_cm] past the peak and 0 before it, with nothing
    clamped and nothing flattened. *)
Theorem damage_unchanged_by_normalization (fck : R) (i : nat) :
  0 < fck -> 1 < k fck ->
  (forall j, (j < length (strain_values fck))%nat ->
             nth j (strain_values fck) 0 / eps_c1 fck < k fck) ->
  (i < length (strain_values fck))%nat -> i <> start_index fck ->
  nth i (damage_values fck) 0 = nth i (damage_raw fck) 0.
Proof.
  intros Hf H1 Hall _ _. unfold damage_values.
  rewrite ensure_keeps; [reflexivity|]. now apply damage_raw_shape.
Qed.

Lemma damage_unchanged_by_normalization_witness :
  0 < 30 /\ 1 < k 30
  /\ (forall j, (j < length (strain_values 30))%nat ->
                nth j (strain_values 30) 0 / eps_c1 30 < k 30)
  /\ (35 < length (strain_values 30))%nat /\ 35%nat <> start_index 30
  /\ nth 35 (damage_values 30) 0 = nth 35 (damage_raw 30) 0.
Proof.
  assert (H0 : 0 < 30) by lra.
  assert (H1 : 1 < k 30) by (pose proof k_30_lower; lra).
  assert (Hi : (35 < length (strain_values 30))%nat)
    by (rewrite length_strain_values_30; lia).
  assert (Hne : 35%nat <> start_index 30)
    by (pose proof (start_index_on_peak 30 H0) as (_ & _ & H); lia).
  split; [exact H0|]. split; [exact H1|]. split; [exact eta_30_below_k|].
  split; [exact Hi|]. split; [exact Hne|].
  exact (damage_unchanged_by_normalization 30 35 H0 H1 eta_30_below_k Hi Hne).
Defined.

Lemma peak_strain_covers_elastic fck :
  0 < fck -> 1.05 <= k fck -> f_cm fck / E_cm_MPa fck <= eps_c1 fck.
Proof.
  intros Hf Hk. pose proof (f_cm_pos fck Hf) as Hm.
  pose proof (eps_c1_lower fck Hf) as He.
  pose proof (E_cm_GPa_lower fck Hf) as HE.
  assert (HM : 0 < E_cm_MPa fck) by (unfold E_cm_MPa; lra).
  unfold k, Py.abs in Hk. rewrite Rabs_pos_eq in Hk by lra.
  assert (Hk' : 1.05 * f_cm fck <= 1.05 * E_cm_MPa fck * eps_c1 fck).
  { apply Rmult_le_reg_r with (/ f_cm fck);
      [apply Rinv_0_lt_compat; exact Hm|].
    rewrite (Rmult_assoc 1.05 (f_cm fck)), Rinv_r by lra.
    unfold Rdiv in Hk. lra. }
  apply Rmult_le_reg_r with (E_cm_MPa fck); [exact HM|].
  unfold Rdiv. rewrite Rmult_assoc, Rinv_l by lra. nra.
Qed.

Lemma inelastic_raw_shape fck :
  0 < fck -> 1.05 <= k fck ->
  (forall i, (i < length (strain_values fck))%nat ->
             nth i (strain_values fck) 0 / eps_c1 fck < k fck) ->
  non_negative_non_decreasing (inelastic_strain_raw fck).
Proof.
  intros Hf Hk Hall. assert (H1 : 1 < k fck) by lra.
  pose proof (E_cm_GPa_lower fck Hf) as HE.
  assert (HM : 0 < E_cm_MPa fck) by (unfold E_cm_MPa; lra).
  pose proof (Rinv_0_lt_compat _ HM) as HMi.
  pose proof (peak_strain_covers_elastic fck Hf Hk) as Hcov.
  assert (Hnn : forall i, (i < length (strain_values fck))%nat ->
                          0 <= nth i (inelastic_strain_raw fck) 0).
  { intros i Hi. rewrite (nth_inelastic_strain_raw fck i Hi).
    destruct (Rgt_dec _ _) as [Hg|]; [|apply Rle_refl].
    rewrite (nth_elastic_strain_values fck i Hi).
    pose proof (stress_bounds_below_k fck i Hf Hi H1 (Hall i Hi)) as [_ Hs].
    assert (nth i (stress_values fck) 0 * / E_cm_MPa fck
            <= f_cm fck * / E_cm_MPa fck)
      by (apply Rmult_le_compat_r; lra).
    unfold Rdiv in *. lra. }
  split; intros i Hi; rewrite length_inelastic_strain_raw in Hi.
  - now apply Hnn.
  - assert (Hi0 : (i < length (strain_values fck))%nat) by lia.
    pose proof (Hnn (S i) Hi) as Hn.
    rewrite (nth_inelastic_strain_raw fck i Hi0).
    destruct (Rgt_dec _ _) as [Hg|]; [|exact Hn].
    assert (Hlt : (start_index fck < i)%nat)
      by (apply (mask_after_start fck i Hf Hi0); exact Hg).
    pose proof (stress_decreasing_past_peak fck i Hf H1 Hi (Hall _ Hi))
      as Hdec.
    rewrite (nth_inelastic_strain_raw fck (S i) Hi).
    destruct (Rgt_dec _ _) as [|Hn'].
    + rewrite !nth_elastic_strain_values by lia.
      rewrite (nth_strain_values fck (S i)), (nth_strain_values fck i) by lia.
      rewrite S_INR. unfold Rdiv.
      assert (nth (S i) (stress_values fck) 0 * / E_cm_MPa fck
              <= nth i (stress_values fck) 0 * / E_cm_MPa fck)
        by (apply Rmult_le_compat_r; [lra | apply Rlt_le, Hdec; lia]).
      lra.
    + exfalso. apply Hn'. apply (mask_after_start fck (S i) Hf Hi). lia.
Qed.

(** X17. For every [f_ck > 0] with [k >= 1.05] whose whole grid stays below
    [k], the normalization of Step 14 leaves the inelastic strain as
    computed: [inelastic_strain_values] is the raw [strain - stress / E_cm]
    past the peak and 0 up to it. *)
Theorem inelastic_unchanged_by_normalization (fck : R) :
  0 < fck -> 1.05 <= k fck ->
  (forall i, (i < length (strain_values fck))%nat ->
             nth i (strain_values fck) 0 / eps_c1 fck < k fck) ->
  inelastic_strain_values fck = inelastic_strain_raw fck.
Proof.
  intros Hf Hk Hall. unfold inelastic_strain_values.
  apply ensure_keeps. now apply inelastic_raw_shape.
Qed.

Lemma inelastic_unchanged_by_normalization_witness :
  0 < 30 /\ 1.05 <= k 30
  /\ (forall i, (i < length (strain_values 30))%nat ->
                nth i (strain_values 30) 0 / eps_c1 30 < k 30)
  /\ inelastic_strain_values 30 = inelastic_strain_raw 30.
Proof.
  assert (H0 : 0 < 30) by lra.
  assert (H1 : 1.05 <= k 30) by (pose proof k_30_lower; lra).
  split; [exact H0|]. split; [exact H1|]. split; [exact eta_30_below_k|].
  exact (inelastic_unchanged_by_normalization 30 H0 H1 eta_30_below_k).
Defined.

(** ** The Eurocode range, [f_ck <= 90] *)

Lemma round_half_even_error (y : R) : y - 1 / 2 <= IZR (Py.round_half_even y).
Proof.
  unfold Py.round_half_even. pose proof (Zfloor_bound y) as [Hf1 Hf2].
  destruct (Rlt_dec _ _); [lra|].
  destruct (Rlt_dec _ _); [rewrite plus_IZR; lra|].
  destruct (Z.even _); [lra | rewrite plus_IZR; lra].
Qed.

Lemma round4_error (x : R) : x - 0.00005 <= Py.round x 4.
Proof.
  unfold Py.round. replace (10 ^ 4) with 10000 by (simpl; lra).
  pose proof (round_half_even_error (x * 10000)). lra.
Qed.

Lemma exponent_004 : 0.04 * INR 25 = INR 1.
Proof. rewrite !INR_IZR_INZ. simpl. lra. Qed.

Lemma exponent_035 : 0.35 * INR 20 = INR 7.
Proof. rewrite !INR_IZR_INZ. simpl. lra. Qed.

Lemma Rpower_tenth_lower : 0.5011 < Rpower (/ 10) 0.3.
Proof. rational_power 3%nat 10%nat exponent_03. Qed.

Lemma Rpower_83_004_upper : Rpower 83 0.04 < 1.1934.
Proof. rational_power 1%nat 25%nat exponent_004. Qed.

Lemma Rpower_8_035_lower : 2.07 < Rpower 8 0.35.
Proof. rational_power 7%nat 20%nat exponent_035. Qed.

Lemma Rpower_98_035_upper : Rpower 98 0.35 < 4.977.
Proof. rational_power 7%nat 20%nat exponent_035. Qed.

Lemma Rpower_83_031_upper : Rpower 83 0.31 < 3.94.
Proof. rational_power 31%nat 100%nat exponent_031. Qed.

Lemma Rpower_pos (x y : R) : 0 < Rpower x y.
Proof. unfold Rpower. apply exp_pos. Qed.

(** [k * eps_c1] written with the single power [f_cm^(-0.35)]. *)
Lemma k_eps_c1_as_square fck :
  0 < fck ->
  k fck * eps_c1 fck
  = 23100 * (Rpower (/ 10) 0.3
             * ((Rpower (f_cm fck) (-0.35) * eps_c1 fck)
                * (Rpower (f_cm fck) (-0.35) * eps_c1 fck))).
Proof.
  intros Hf. pose proof (f_cm_pos fck Hf) as Hm.
  pose proof (eps_c1_lower fck Hf) as He.
  unfold k, E_cm_MPa, E_cm_GPa, Py.abs. rewrite Rabs_pos_eq by lra.
  replace (f_cm fck / 10) with (f_cm fck * / 10) by reflexivity.
  rewrite <- (Rpower_mult_distr (f_cm fck) (/ 10) 0.3) by lra.
  replace 0.3 with (-0.35 + (-0.35 + 1)) at 1 by lra.
  rewrite !Rpower_plus, (Rpower_1 _ Hm).
  replace 1.05 with (105 / 100) by lra.
  field. lra.
Qed.

Lemma k_eps_c1_lower_below_75 fck :
  0 < fck -> fck < 75 -> 0.0036 < k fck * eps_c1 fck.
Proof.
  intros Hf H75. pose proof (f_cm_pos fck Hf) as Hm.
  assert (Hx : 8 < f_cm fck < 83) by (unfold f_cm; lra).
  rewrite (k_eps_c1_as_square fck Hf).
  pose proof (Rpower_pos (f_cm fck) (-0.35)) as HB0.
  assert (HA : / 1.1934
               <= Rpower (f_cm fck) (-0.35) * Rpower (f_cm fck) 0.31).
  { rewrite <- Rpower_plus. replace (-0.35 + 0.31) with (Ropp 0.04) by lra.
    rewrite Rpower_Ropp. apply Rinv_le_contravar; [apply Rpower_pos|].
    apply Rle_trans with (Rpower 83 0.04);
      [apply Rle_Rpower_l; lra | left; apply Rpower_83_004_upper]. }
  assert (HB : Rpower (f_cm fck) (-0.35) <= / 2.07).
  { replace (-0.35) with (Ropp 0.35) by lra.
    rewrite Rpower_Ropp. apply Rinv_le_contravar; [lra|].
    apply Rle_trans with (Rpower 8 0.35);
      [left; apply Rpower_8_035_lower | apply Rle_Rpower_l; lra]. }
  assert (Ht : Rpower (f_cm fck) 0.31 < 3.94).
  { apply Rle_lt_trans with (Rpower 83 0.31);
      [apply Rle_Rpower_l; lra | apply Rpower_83_031_upper]. }
  assert (He : 0.0007 * Rpower (f_cm fck) 0.31 - 0.00005 <= eps_c1 fck).
  { unfold eps_c1. pose proof (round4_error (eps_c1_capped fck)) as Hr.
    assert (Hcap : eps_c1_capped fck = 0.0007 * Rpower (f_cm fck) 0.31)
      by (unfold eps_c1_capped, eps_c1_formula; destruct (Rgt_dec _ _); lra).
    lra. }
  assert (Hbe : 0.0007 / 1.1934 - 0.00005 / 2.07
                <= Rpower (f_cm fck) (-0.35) * eps_c1 fck).
  { assert (Rpower (f_cm fck) (-0.35)
            * (0.0007 * Rpower (f_cm fck) 0.31 - 0.00005)
            <= Rpower (f_cm fck) (-0.35) * eps_c1 fck)
      by (apply Rmult_le_compat_l; lra).
    nra. }
  set (m := Rpower (f_cm fck) (-0.35) * eps_c1 fck) in *.
  assert (Hsq : (0.0007 / 1.1934 - 0.00005 / 2.07)
                * (0.0007 / 1.1934 - 0.00005 / 2.07) <= m * m)
    by (apply Rmult_le_compat; lra).
  assert (Hc : 0.5011 * ((0.0007 / 1.1934 - 0.00005 / 2.07)
                         * (0.0007 / 1.1934 - 0.00005 / 2.07))
               <= Rpower (/ 10) 0.3 * (m * m)).
  { apply Rmult_le_compat; [lra | | left; apply Rpower_tenth_lower | exact Hsq].
    apply Rmult_le_pos; lra. }
  lra.
Qed.

Lemma eps_c1_at_cap fck : 75 <= fck -> eps_c1 fck = 0.0028.
Proof.
  intros H.
  assert (Hp : Rpower 83 0.31 <= Rpower (f_cm fck) 0.31)
    by (apply Rle_Rpower_l; unfold f_cm; lra).
  pose proof Rpower_83_lower.
  assert (Hc : 0.002751 <= eps_c1_capped fck <= 0.0028)
    by (unfold eps_c1_capped, eps_c1_formula; destruct (Rgt_dec _ _); lra).
  unfold eps_c1. rewrite (round4_near _ 28); lra.
Qed.

Lemma k_eps_c1_lower_from_75 fck :
  75 <= fck -> fck <= 90 -> 0.0036 < k fck * eps_c1 fck.
Proof.
  intros H75 H90. assert (Hf : 0 < fck) by lra.
  assert (Hx : 83 <= f_cm fck <= 98) by (unfold f_cm; lra).
  rewrite (k_eps_c1_as_square fck Hf), (eps_c1_at_cap fck H75).
  assert (HB : / 4.977 <= Rpower (f_cm fck) (-0.35)).
  { replace (-0.35) with (Ropp 0.35) by lra.
    rewrite Rpower_Ropp. apply Rinv_le_contravar; [apply Rpower_pos|].
    apply Rle_trans with (Rpower 98 0.35);
      [apply Rle_Rpower_l; lra | left; apply Rpower_98_035_upper]. }
  set (m := Rpower (f_cm fck) (-0.35) * 0.0028).
  assert (Hm : / 4.977 * 0.0028 <= m) by (unfold m; lra).
  assert (Hsq : (/ 4.977 * 0.0028) * (/ 4.977 * 0.0028) <= m * m)
    by (apply Rmult_le_compat; lra).
  assert (Hc : 0.5011 * ((/ 4.977 * 0.0028) * (/ 4.977 * 0.0028))
               <= Rpower (/ 10) 0.3 * (m * m)).
  { apply Rmult_le_compat; [lra | | left; apply Rpower_tenth_lower | exact Hsq].
    apply Rmult_le_pos; lra. }
  lra.
Qed.

Lemma strain_below_bound fck i :
  (i < length (strain_values fck))%nat ->
  nth i (strain_values fck) 0 < eps_cu1 fck + 0.0001.
Proof.
  intros Hi. pose proof (last_strain_bounds fck) as [_ Hl].
  rewrite nth_strain_values in * by lia.
  assert (INR i <= INR (length (strain_values fck) - 1))
    by (apply le_INR; lia).
  nra.
Qed.

Lemma below_k_up_to_90 fck :
  0 < fck -> fck <= 90 ->
  1.05 <= k fck
  /\ forall i, (i < length (strain_values fck))%nat ->
               nth i (strain_values fck) 0 / eps_c1 fck < k fck.
Proof.
  intros Hf H90.
  assert (Hke : 0.0036 < k fck * eps_c1 fck).
  { destruct (Rlt_le_dec fck 75) as [H|H];
      [now apply k_eps_c1_lower_below_75 | now apply k_eps_c1_lower_from_75]. }
  pose proof (eps_c1_lower fck Hf) as He1. pose proof (eps_c1_upper fck) as He2.
  pose proof (k_pos fck Hf) as Hk.
  split.
  - destruct (Rle_lt_dec 1.05 (k fck)) as [H|H]; [exact H|]. nra.
  - intros i Hi. pose proof (strain_below_bound fck i Hi) as Hs.
    assert (Hu : eps_cu1 fck <= 0.0035) by (apply eps_cu1_upper; lra).
    apply Rmult_lt_reg_r with (eps_c1 fck); [lra|].
    unfold Rdiv. rewrite Rmult_assoc, Rinv_l by lra. lra.
Qed.

(** X18. Over the whole Eurocode range, [0 < f_ck <= 90], the curve
    parameter [k] is at least 1.05 and the strain grid stays below it:
    [strain / eps_c1 < k] at every position. *)
Theorem eurocode_range_below_k (fck : R) :
  0 < fck -> fck <= 90 ->
  0.0036 < k fck * eps_c1 fck
  /\ 1.05 <= k fck
  /\ forall i, (i < length (strain_values fck))%nat ->
               nth i (strain_values fck) 0 / eps_c1 fck < k fck.
Proof.
  intros Hf H90. split; [|now apply below_k_up_to_90].
  destruct (Rlt_le_dec fck 75) as [H|H];
    [now apply k_eps_c1_lower_below_75 | now apply k_eps_c1_lower_from_75].
Qed.

Lemma eurocode_range_below_k_witness :
  0 < 90 /\ 90 <= 90 /\ 1.05 <= k 90
  /\ forall i, (i < length (strain_values 90))%nat ->
               nth i (strain_values 90) 0 / eps_c1 90 < k 90.
Proof.
  assert (H0 : 0 < 90) by lra. assert (H1 : 90 <= 90) by lra.
  destruct (eurocode_range_below_k 90 H0 H1) as (_ & H2 & H3).
  repeat split; assumption.
Defined.

(** X19. Over the Eurocode range, [0 < f_ck <= 90], the raw curve is well
    behaved: at every position the stress is at least 0 and the raw damage
    is below 1; where the strain exceeds [eps_c1] the stress is positive,
    so the divisor [1 - damage] of Step 13 is not zero; and at every
    position other than [start_index] the stress is below [f_cm] and the
    raw damage is at least 0. *)
Theorem eurocode_range_raw_curve (fck : R) (i : nat) :
  0 < fck -> fck <= 90 -> (i < length (strain_values fck))%nat ->
  0 <= nth i (stress_values fck) 0
  /\ nth i (damage_raw fck) 0 < 1
  /\ (nth i (strain_values fck) 0 > eps_c1 fck ->
      0 < nth i (stress_values fck) 0
      /\ 1 - nth i (damage_raw fck) 0 <> 0)
  /\ (i <> start_index fck ->
      nth i (stress_values fck) 0 < f_cm fck
      /\ 0 <= nth i (damage_raw fck) 0).
Proof.
  intros Hf H90 Hi. destruct (below_k_up_to_90 fck Hf H90) as [Hk Hall].
  assert (H1 : 1 < k fck) by lra.
  pose proof (stress_bounds_below_k fck i Hf Hi H1 (Hall i Hi)) as Hs.
  pose proof (damage_raw_bounds_below_k fck i Hf Hi H1 (Hall i Hi)) as Hd.
  split; [apply Hs|]. split; [apply Hd|]. split.
  - intros Hg. split; [|lra].
    pose proof (f_cm_pos fck Hf) as Hm.
    rewrite (nth_damage_raw fck i Hi) in Hd.
    destruct (Rgt_dec _ _); [|contradiction].
    destruct Hs as [Hs0 _]. destruct Hs0 as [Hpos|Hz]; [exact Hpos|].
    rewrite <- Hz in Hd. unfold Rdiv in Hd. rewrite Rmult_0_l in Hd. lra.
  - intros Hne. split; [|apply Hd].
    apply (stress_below_peak_off_start fck i Hf Hi H1 (Hall i Hi) Hne).
Qed.

Lemma eurocode_range_raw_curve_witness :
  0 < 90 /\ 90 <= 90 /\ (10 < length (strain_values 90))%nat
  /\ 0 <= nth 10 (stress_values 90) 0
  /\ nth 10 (damage_raw 90) 0 < 1.
Proof.
  assert (H0 : 0 < 90) by lra. assert (H1 : 90 <= 90) by lra.
  assert (Hi : (10 < length (strain_values 90))%nat)
    by (pose proof (strain_values_nonempty 90); lia).
  destruct (eurocode_range_raw_curve 90 10 H0 H1 Hi) as (H2 & H3 & _).
  repeat split; assumption.
Defined.

(** X20. Over the Eurocode range, [0 < f_ck <= 90], Step 14 does not change
    the inelastic strain (the raw array is already non-negative and
    non-decreasing); the normalized damage lies in [0, 1) at every
    position; and at every position other than [start_index] the damage is
    left as computed and the normalized plastic strain is at most the
    normalized inelastic strain. *)
Theorem eurocode_range_normalization (fck : R) :
  0 < fck -> fck <= 90 ->
  inelastic_strain_values fck = inelastic_strain_raw fck
  /\ forall i, (i < length (strain_values fck))%nat ->
       0 <= nth i (damage_values fck) 0 < 1
       /\ (i <> start_index fck ->
           nth i (damage_values fck) 0 = nth i (damage_raw fck) 0
           /\ nth i (plastic_strain_values fck) 0
              <= nth i (inelastic_strain_values fck) 0).
Proof.
  intros Hf H90. destruct (below_k_up_to_90 fck Hf H90) as [Hk Hall].
  assert (H1 : 1 < k fck) by lra.
  assert (Ed : damage_values fck = damage_raw fck)
    by (unfold damage_values; apply ensure_keeps;
        now apply damage_raw_shape).
  split.
  - unfold inelastic_strain_values. apply ensure_keeps.
    now apply inelastic_raw_shape.
  - intros i Hi. split.
    + rewrite Ed.
      apply (damage_raw_bounds_below_k fck i Hf Hi H1 (Hall i Hi)).
    + intros _. split; [now rewrite Ed|].
      unfold plastic_strain_values, inelastic_strain_values.
      apply ensure_pointwise_le;
        rewrite ?length_plastic_strain_raw, ?length_inelastic_strain_raw; auto.
      intros j Hj.
      apply (plastic_raw_le_inelastic_raw fck j Hf Hj H1 (Hall j Hj)).
Qed.

Lemma eurocode_range_normalization_witness :
  0 < 45 /\ 45 <= 90
  /\ inelastic_strain_values 45 = inelastic_strain_raw 45
  /\ 0 <= nth 20 (damage_values 45) 0 < 1.
Proof.
  assert (H0 : 0 < 45) by lra. assert (H1 : 45 <= 90) by lra.
  assert (Hi : (20 < length (strain_values 45))%nat)
    by (pose proof (strain_values_nonempty 45); lia).
  destruct (eurocode_range_normalization 45 H0 H1) as (H2 & H3).
  split; [exact H0|]. split; [exact H1|]. split; [exact H2|].
  exact (proj1 (H3 20%nat Hi)).
Defined.
